(** * docker-tcp-switchboard: a shallow embedding of the instance manager

    The development embeds [src/docker-tcp-switchboard.py]: the global
    registry [DockerPorts], the container life cycle of [DockerInstance]
    (start, readiness polling, stop) and the two connection callbacks of
    [DockerProxyServer].

    Everything outside the Python process is kept abstract: the container
    runtime reached through [subprocess.getstatusoutput], the probe socket
    and the wall clock are operations on an abstract [World].  The Python
    code is embedded in a state-and-exception monad over a system state
    that holds the world, the global [DockerPorts] object, an object
    identity counter and a trace of the observable calls. *)

From Stdlib Require Import ZArith QArith Lqa String Ascii List.
From stdpp Require Import base option list gmap strings.
Close Scope Q_scope.
Local Open Scope Z_scope.

(** ** Values exchanged with the outside *)

(** The four shell commands of the program.  [DockerRun] carries the
    whole text given to the shell on line 63, that is the text of line
    62 after its second formatting, [cmd.format(0)]; the text of the
    other commands is fixed by their constructor and their argument. *)
Inductive Command : Type :=
| DockerRun (cmd : string)                   (* "docker run --detach ...".format(0) *)
| DockerPort (instanceid : string)           (* docker port {} *)
| DockerKill (instanceid : option string)    (* docker kill {} *)
| DockerRm (instanceid : option string).     (* docker rm {} *)

(** One constructor per [print] of the source. *)
Inductive Message : Type :=
| MsgReachedMax (imagelimit : Z) (icount : nat) (imagename : string)
| MsgFailedStart
| MsgRcOut (rc : Z) (out : string)
| MsgFailedPortInfo (instanceid : string)
| MsgFailedParse (instanceid : string) (out : string)
| MsgStarted (middleport : Z) (instanceid : string)
| MsgKilling (instanceid : option string) (middleport : option Z)
| MsgFailedStop (middleport : option Z) (instanceid : option string)
| MsgFailedRemove (middleport : option Z) (instanceid : option string).

(** Observable calls, in the order the program makes them. *)
Inductive Event : Type :=
| EvPrint (m : Message)
| EvCmd (c : Command) (rc : Z) (out : string)
| EvConnect (port : Z) (connected : bool)
| EvSetTimeout (t : Q)
| EvRecv (bufsize : nat) (data : option (list Byte.byte))
| EvClose
| EvTime (t : Q)
| EvSleep (d : Q)
| EvPauseProducing
| EvWrite (data : string)
| EvLoseConnection
| EvConnectTCP (host : string) (port : option Z)
| EvSuperConnectionLost.

(** Python exceptions that the embedded code can raise. *)
Inductive exn : Type :=
| KeyError | ValueError | TypeError | IndexError | AttributeError.

(** Outcome of a call: a value, an exception, or no outcome within the
    polling fuel of the model. *)
Inductive result (A : Type) : Type :=
| Returned (a : A)
| Raised (e : exn)
| OutOfFuel.
Arguments Returned {A} a.
Arguments Raised {A} e.
Arguments OutOfFuel {A}.

(** ** Objects *)

(** A [DockerInstance] object.  [oid] is the identity of the Python
    object: the class defines no [__eq__], so [list.remove] compares
    instances by identity. *)
Record DockerInstance : Type := mkDockerInstance {
  oid : nat;
  dockerparams : string;
  imagename : string;
  middleport : option Z;
  instanceid : option string
}.

(** The dictionary stored per outer port by [registerProxy]. *)
Record ImageParams : Type := mkImageParams {
  cfg_imagename : string;
  cfg_params : string;
  cfg_limit : Z
}.

Record DockerPorts : Type := mkDockerPorts {
  instancesByPort : gmap (option Z) DockerInstance;
  instancesByName : gmap string (list DockerInstance);
  imageParams : gmap Z ImageParams
}.

(** [DockerPorts.__init__] *)
Definition DockerPorts_init : DockerPorts :=
  mkDockerPorts ∅ ∅ ∅.

(** [list.remove(x)]: drops the first element equal to [x], [None] for
    the [ValueError] raised when there is none. *)
Fixpoint list_remove (x : DockerInstance) (l : list DockerInstance)
  : option (list DockerInstance) :=
  match l with
  | [] => None
  | y :: l' =>
      if Nat.eqb (oid y) (oid x) then Some l'
      else option_map (cons y) (list_remove x l')
  end.

(** [len(self.instancesByName[imagename])], 0 when the key is absent. *)
Definition live_count (imagename : string) (dp : DockerPorts) : nat :=
  match instancesByName dp !! imagename with
  | Some l => length l
  | None => O
  end.

(** Lines 27-29 of [create]: [Some icount] when the admission check
    fires. *)
Definition reached_limit (dp : DockerPorts) (imagename : string) (imagelimit : Z)
  : option nat :=
  if 0 <? imagelimit then
    match instancesByName dp !! imagename with
    | Some l =>
        let icount := length l in
        if imagelimit <=? Z.of_nat icount then Some icount else None
    | None => None
    end
  else None.

(** The rejection line of [connectionMade]. *)
Definition CRLF : string :=
  String (ascii_of_nat 13) (String (ascii_of_nat 10) EmptyString).
Definition rejection_line : string :=
  ("Maximum connection-count reached. Try again later." ++ CRLF)%string.

(** Line 62: ["docker run --detach {}".format(self.dockerparams)]. *)
Definition run_text (dockerparams : string) : string :=
  ("docker run --detach " ++ dockerparams)%string.

(** Defaults of [__isPortOpen] and [__waitForOpenPort]; times are in
    seconds, as rationals. *)
Definition readtimeout_default : Q := 1 # 10.
Definition timeout_default : Q := 5 # 1.
Definition step_default : Q := 1 # 10.

(** ** The outside world *)

(** What the program calls outside itself, over an abstract state of the
    world. *)
Class Runtime (World : Type) : Type := {
  (** [subprocess.getstatusoutput(cmd)] *)
  getstatusoutput : Command -> World -> (Z * string) * World;
  (** [s.connect(("0.0.0.0", port))]: [false] for [socket.error].  The
      port comes from the runtime's port mapping. *)
  sock_connect : Z -> World -> bool * World;
  (** [s.recv(bufsize)] under the socket's timeout: [None] for
      [socket.error] (which includes [socket.timeout]). *)
  sock_recv : Q -> nat -> World -> option (list Byte.byte) * World;
  (** [time.time()] and [time.sleep(d)] *)
  clock_time : World -> Q * World;
  clock_sleep : Q -> World -> World;
  (** [text.format(0)], the second formatting of the launch command on
      line 63: the formatted text, or the exception that [str.format]
      raises on the replacement fields of [text] ([IndexError] for a
      field number other than 0, [KeyError] for a field name,
      [ValueError] for a brace that is not matched, and so on). *)
  format0 : string -> exn + string;
  (** [out.strip()] *)
  strip : string -> string;
  (** [int(out.strip().split(" ")[2].split(":")[1])] of line 79, [None]
      when the expression raises. *)
  parse_port : string -> option Z
}.

(** ** A scripted world

    A concrete [Runtime] for the scenarios: the container runtime answers
    by a fixed table, the backend either listens or not and either sends
    a banner or not, and only [time.sleep] moves the clock. *)
Module Scenario.

Record world : Type := mkWorld {
  now : Q;
  docker : Command -> Z * string;
  listening : bool;
  banner : option (list Byte.byte)
}.

Definition is_space (c : ascii) : bool :=
  let n := nat_of_ascii c in
  (Nat.leb 9 n && Nat.leb n 13) || Nat.eqb n 32.

Fixpoint lstrip (l : list ascii) : list ascii :=
  match l with
  | c :: l' => if is_space c then lstrip l' else l
  | [] => []
  end.

Definition strip_ascii (s : string) : string :=
  string_of_list_ascii
    (rev (lstrip (rev (lstrip (list_ascii_of_string s))))).

(** [s.split(sep)] for a one-character separator. *)
Fixpoint split (sep : ascii) (l : list ascii) : list (list ascii) :=
  match l with
  | [] => [[]]
  | c :: l' =>
      if Ascii.eqb c sep then [] :: split sep l'
      else match split sep l' with
           | w :: ws => (c :: w) :: ws
           | [] => [[c]]
           end
  end.

Definition digit (c : ascii) : option Z :=
  let n := nat_of_ascii c in
  if Nat.leb 48 n && Nat.leb n 57 then Some (Z.of_nat n - 48) else None.

Fixpoint digits (acc : Z) (l : list ascii) : option Z :=
  match l with
  | [] => Some acc
  | c :: l' =>
      match digit c with
      | Some d => digits (10 * acc + d) l'
      | None => None
      end
  end.

(** [int(out.strip().split(" ")[2].split(":")[1])] on plain decimal
    numerals. *)
Definition port_of_mapping (out : string) : option Z :=
  match split " " (list_ascii_of_string (strip_ascii out)) !! 2%nat with
  | Some field =>
      match split ":" field !! 1%nat with
      | Some (c :: num) => digits 0 (c :: num)
      | _ => None
      end
  | None => None
  end.

(** Where [str.format] is in a text: in literal text, after an opening
    brace, inside a replacement field (its name so far, last character
    first), or after a closing brace in literal text. *)
Inductive format_state : Type :=
| InText
| AfterOpen
| InField (name : list ascii)
| AfterClose.

(** The value of the replacement field [name] for the one argument 0.
    [numbering] is [Some true] once a field was numbered automatically
    and [Some false] once one was numbered by hand; [next] is the next
    automatic number.  The script covers plain fields only: empty,
    a number, or a name.  A field with a conversion, a format
    specification, an attribute or an index is outside it (Python
    formats some of these and raises on others); no scenario uses one,
    and the script answers [ValueError]. *)
Definition format_field (name : list ascii) (numbering : option bool) (next : nat)
  : exn + (option bool * nat) :=
  match name with
  | [] =>
      match numbering with
      | Some false => inl ValueError
      | _ => if Nat.eqb next 0 then inr (Some true, S next) else inl IndexError
      end
  | _ =>
      match digits 0 name with
      | Some n =>
          match numbering with
          | Some true => inl ValueError
          | _ => if Z.eqb n 0 then inr (Some false, next) else inl IndexError
          end
      | None =>
          if existsb (fun c => Ascii.eqb c "!" || Ascii.eqb c ":"
                               || Ascii.eqb c "." || Ascii.eqb c "[") name
          then inl ValueError
          else inl KeyError
      end
  end.

Definition emit_chars (out : list ascii) (rest : exn + list ascii) : exn + list ascii :=
  match rest with
  | inl e => inl e
  | inr l => inr (out ++ l)
  end.

(** [text.format(0)], character by character. *)
Fixpoint format_chars (st : format_state) (numbering : option bool) (next : nat)
         (l : list ascii) : exn + list ascii :=
  match l with
  | [] =>
      match st with
      | InText => inr []
      | _ => inl ValueError
      end
  | c :: l' =>
      match st with
      | InText =>
          if Ascii.eqb c "{" then format_chars AfterOpen numbering next l'
          else if Ascii.eqb c "}" then format_chars AfterClose numbering next l'
          else emit_chars [c] (format_chars InText numbering next l')
      | AfterClose =>
          if Ascii.eqb c "}" then emit_chars [c] (format_chars InText numbering next l')
          else inl ValueError
      | AfterOpen =>
          if Ascii.eqb c "{" then emit_chars [c] (format_chars InText numbering next l')
          else if Ascii.eqb c "}" then
            match format_field [] numbering next with
            | inl e => inl e
            | inr (numbering', next') =>
                emit_chars ["0"%char] (format_chars InText numbering' next' l')
            end
          else format_chars (InField [c]) numbering next l'
      | InField name =>
          if Ascii.eqb c "}" then
            match format_field (rev name) numbering next with
            | inl e => inl e
            | inr (numbering', next') =>
                emit_chars ["0"%char] (format_chars InText numbering' next' l')
            end
          else if Ascii.eqb c "{" then inl ValueError
          else format_chars (InField (c :: name)) numbering next l'
      end
  end.

Definition format0_ascii (text : string) : exn + string :=
  match format_chars InText None 0 (list_ascii_of_string text) with
  | inl e => inl e
  | inr l => inr (string_of_list_ascii l)
  end.

#[export] Instance runtime : Runtime world := {|
  format0 := format0_ascii;
  getstatusoutput c w := (docker w c, w);
  sock_connect _ w := (listening w, w);
  sock_recv _ _ w := (banner w, w);
  clock_time w := (now w, w);
  clock_sleep d w := mkWorld (now w + d)%Q (docker w) (listening w) (banner w);
  strip := strip_ascii;
  parse_port := port_of_mapping
|}.

Definition newline : string := String (ascii_of_nat 10) EmptyString.

(** A runtime on which every command succeeds: [docker run] prints an
    identifier and [docker port] a mapping to host port 12345. *)
Definition docker_ok (c : Command) : Z * string :=
  match c with
  | DockerRun _ => (0, ("c0ffee" ++ newline)%string)
  | DockerPort _ => (0, "22/tcp -> 0.0.0.0:12345"%string)
  | DockerKill _ => (0, EmptyString)
  | DockerRm _ => (0, EmptyString)
  end.

(** A runtime on which [docker run] fails, so that there is no container
    to describe, kill or remove. *)
Definition docker_norun (c : Command) : Z * string :=
  match c with
  | DockerRun _ => (125, "docker: Error response from daemon."%string)
  | _ => (1, "Error response from daemon: No such container"%string)
  end.

(** A runtime on which [docker kill] fails. *)
Definition docker_nokill (c : Command) : Z * string :=
  match c with
  | DockerKill _ => (1, "Error response from daemon: cannot kill container"%string)
  | _ => docker_ok c
  end.

(** The backend serves a banner at once. *)
Definition serving : world :=
  mkWorld 0 docker_ok true (Some [Byte.x53]).
(** The backend port is open but nothing is ever sent. *)
Definition silent : world :=
  mkWorld 0 docker_ok true None.
(** [docker run] fails. *)
Definition norun : world :=
  mkWorld 0 docker_norun false None.
(** [docker kill] fails. *)
Definition nokill : world :=
  mkWorld 0 docker_nokill true (Some [Byte.x53]).

End Scenario.

Section Switchboard.

Context {World : Type} {RT : Runtime World}.

(** The state of the process and of what surrounds it: the outside
    world, the calls made so far, the number of objects allocated so far
    and the global [globalDockerPorts]. *)
Record Sys : Type := mkSys {
  world : World;
  trace : list Event;              (* newest event first *)
  next_oid : nat;
  globalDockerPorts : DockerPorts
}.

(** ** The monad *)

Definition M (A : Type) : Type := Sys -> result A * Sys.

Definition ret {A} (a : A) : M A := fun s => (Returned a, s).
Definition raise {A} (e : exn) : M A := fun s => (Raised e, s).
Definition diverge {A} : M A := fun s => (OutOfFuel, s).
Definition bind {A B} (m : M A) (k : A -> M B) : M B :=
  fun s =>
    match m s with
    | (Returned a, s') => k a s'
    | (Raised e, s') => (Raised e, s')
    | (OutOfFuel, s') => (OutOfFuel, s')
    end.

Notation "x <- m ;; k" := (bind m (fun x => k))
  (at level 100, m at next level, right associativity).
Notation "m ;;; k" := (bind m (fun _ => k))
  (at level 100, right associativity).

Definition emit (e : Event) : M unit :=
  fun s => (Returned tt,
            mkSys (world s) (e :: trace s) (next_oid s) (globalDockerPorts s)).
Definition print (m : Message) : M unit := emit (EvPrint m).

Definition get_ports : M DockerPorts :=
  fun s => (Returned (globalDockerPorts s), s).
Definition put_ports (dp : DockerPorts) : M unit :=
  fun s => (Returned tt, mkSys (world s) (trace s) (next_oid s) dp).

(** Object allocation: a fresh identity. *)
Definition fresh_oid : M nat :=
  fun s => (Returned (next_oid s),
            mkSys (world s) (trace s) (S (next_oid s)) (globalDockerPorts s)).

(** Lifting of the world's operations; each call is recorded. *)
Definition run_command (c : Command) : M (Z * string) :=
  fun s =>
    let '((rc, out), w) := getstatusoutput c (world s) in
    (Returned (rc, out),
     mkSys w (EvCmd c rc out :: trace s) (next_oid s) (globalDockerPorts s)).

Definition connect (port : Z) : M bool :=
  fun s =>
    let '(ok, w) := sock_connect port (world s) in
    (Returned ok,
     mkSys w (EvConnect port ok :: trace s) (next_oid s) (globalDockerPorts s)).

Definition recv (sock_timeout : Q) (bufsize : nat) : M (option (list Byte.byte)) :=
  fun s =>
    let '(data, w) := sock_recv sock_timeout bufsize (world s) in
    (Returned data,
     mkSys w (EvRecv bufsize data :: trace s) (next_oid s) (globalDockerPorts s)).

Definition time : M Q :=
  fun s =>
    let '(t, w) := clock_time (world s) in
    (Returned t,
     mkSys w (EvTime t :: trace s) (next_oid s) (globalDockerPorts s)).

Definition sleep (d : Q) : M unit :=
  fun s =>
    (Returned tt,
     mkSys (clock_sleep d (world s)) (EvSleep d :: trace s)
           (next_oid s) (globalDockerPorts s)).

(** ** DockerInstance *)

(** [DockerInstance.__init__] *)
Definition DockerInstance_new (imagename dockerparams : string) : M DockerInstance :=
  o <- fresh_oid ;;
  ret (mkDockerInstance o dockerparams imagename None None).

(** [DockerInstance.stop] *)
Definition stop (self : DockerInstance) : M bool :=
  print (MsgKilling (instanceid self) (middleport self)) ;;;
  r <- run_command (DockerKill (instanceid self)) ;;
  if negb (fst r =? 0) then
    print (MsgFailedStop (middleport self) (instanceid self)) ;;;
    ret false
  else
    r <- run_command (DockerRm (instanceid self)) ;;
    if negb (fst r =? 0) then
      print (MsgFailedRemove (middleport self) (instanceid self)) ;;;
      ret false
    else ret true.

(** [DockerInstance.__isPortOpen]; [connect] on a port [None] raises
    [TypeError], which the [except socket.error] does not catch. *)
Definition isPortOpen (self : DockerInstance) (readtimeout : Q) : M bool :=
  match middleport self with
  | None => raise TypeError
  | Some port =>
      connected <- connect port ;;
      r <- (if connected then
              emit (EvSetTimeout readtimeout) ;;;
              data <- recv readtimeout 1 ;;
              match data with
              | Some d => ret (Nat.ltb 0 (length d))
              | None => ret false
              end
            else ret false) ;;
      emit EvClose ;;;
      ret r
  end.

(** The [while] loop of [__waitForOpenPort]; [fuel] bounds the number
    of iterations. *)
Fixpoint waitLoop (fuel : nat) (self : DockerInstance) (started timeout step : Q)
  : M bool :=
  match fuel with
  | O => diverge
  | S fuel' =>
      now <- time ;;
      if Qle_bool now (started + timeout)%Q then
        open <- isPortOpen self readtimeout_default ;;
        if open then ret true
        else sleep step ;;; waitLoop fuel' self started timeout step
      else ret false
  end.

(** [DockerInstance.__waitForOpenPort] *)
Definition waitForOpenPort (fuel : nat) (self : DockerInstance) (timeout step : Q)
  : M bool :=
  started <- time ;;
  waitLoop fuel self started timeout step.

Definition set_instanceid (self : DockerInstance) (i : string) : DockerInstance :=
  mkDockerInstance (oid self) (dockerparams self) (imagename self)
                   (middleport self) (Some i).
Definition set_middleport (self : DockerInstance) (p : Z) : DockerInstance :=
  mkDockerInstance (oid self) (dockerparams self) (imagename self)
                   (Some p) (instanceid self).

(** [DockerInstance.start]: the value returned and the object after
    the call.  The second formatting of the command text comes first;
    when it raises, nothing has been asked of the runtime. *)
Definition start (fuel : nat) (self : DockerInstance)
  : M (option string * DockerInstance) :=
  match format0 (run_text (dockerparams self)) with
  | inl e => raise e
  | inr cmd =>
      r <- run_command (DockerRun cmd) ;;
      if negb (fst r =? 0) then
        print MsgFailedStart ;;;
        print (MsgRcOut (fst r) (snd r)) ;;;
        ret (None, self)
      else
        let id := strip (snd r) in
        let self := set_instanceid self id in
        r <- run_command (DockerPort id) ;;
        if negb (fst r =? 0) then
          print (MsgFailedPortInfo id) ;;;
          print (MsgRcOut (fst r) (snd r)) ;;;
          ret (None, self)
        else
          match parse_port (snd r) with
          | None =>
              print (MsgFailedParse id (snd r)) ;;;
              _ <- stop self ;;
              ret (None, self)
          | Some p =>
              let self := set_middleport self p in
              print (MsgStarted p id) ;;;
              ready <- waitForOpenPort fuel self timeout_default step_default ;;
              if ready then ret (instanceid self, self)
              else
                _ <- stop self ;;
                ret (None, self)
          end
  end.

(** ** DockerPorts *)

(** [DockerPorts.registerProxy] *)
Definition registerProxy (imagename : string) (outerport : Z)
           (params : string) (limit : Z) : M unit :=
  dp <- get_ports ;;
  put_ports (mkDockerPorts (instancesByPort dp) (instancesByName dp)
               (<[outerport := mkImageParams imagename params limit]>
                  (imageParams dp))).

(** Lines 36-39 of [create]: the registration of a started instance. *)
Definition register (imagename : string) (instance : DockerInstance)
           (dp : DockerPorts) : DockerPorts :=
  let p := middleport instance in
  let byPort := <[p := instance]> (instancesByPort dp) in
  let byName :=
    match instancesByName dp !! imagename with
    | Some _ => instancesByName dp
    | None => <[imagename := []]> (instancesByName dp)
    end in
  let byName := <[imagename := default [] (byName !! imagename) ++ [instance]]> byName in
  mkDockerPorts byPort byName (imageParams dp).

(** Lines 33-41 of [create]: the instance is constructed, started and
    registered; the value returned by [start] is not looked at. *)
Definition create_admitted (fuel : nat) (imagename params : string)
  : M (option DockerInstance) :=
  instance <- DockerInstance_new imagename params ;;
  started <- start fuel instance ;;
  let instance := snd started in
  dp <- get_ports ;;
  put_ports (register imagename instance dp) ;;;
  ret (Some instance).

(** [DockerPorts.create]: [None] is the denial of the admission
    check. *)
Definition create (fuel : nat) (outerport : Z) : M (option DockerInstance) :=
  dp <- get_ports ;;
  match imageParams dp !! outerport with
  | None => raise KeyError
  | Some cfg =>
      let imagename := cfg_imagename cfg in
      let imagelimit := cfg_limit cfg in
      match reached_limit dp imagename imagelimit with
      | Some icount =>
          print (MsgReachedMax imagelimit icount imagename) ;;;
          ret None
      | None => create_admitted fuel imagename (cfg_params cfg)
      end
  end.

(** [DockerPorts.destroy] *)
Definition destroy (instance : DockerInstance) : M unit :=
  _ <- stop instance ;;
  let p := middleport instance in
  let n := imagename instance in
  dp <- get_ports ;;
  match instancesByPort dp !! p with
  | None => raise KeyError
  | Some _ =>
      let dp := mkDockerPorts (delete p (instancesByPort dp))
                              (instancesByName dp) (imageParams dp) in
      put_ports dp ;;;
      match instancesByName dp !! n with
      | None => raise KeyError
      | Some l =>
          match list_remove instance l with
          | None => raise ValueError
          | Some l' =>
              put_ports (mkDockerPorts (instancesByPort dp)
                           (<[n := l']> (instancesByName dp)) (imageParams dp))
          end
      end
  end.

(** ** DockerProxyServer *)

(** [DockerProxyServer.connectionMade] for a session of the factory of
    [outerport]; the value is [self.dockerinstance] after the call. *)
Definition connectionMade (fuel : nat) (outerport : Z) : M (option DockerInstance) :=
  emit EvPauseProducing ;;;
  dockerinstance <- create fuel outerport ;;
  match dockerinstance with
  | None =>
      emit (EvWrite rejection_line) ;;;
      emit EvLoseConnection ;;;
      ret None
  | Some i =>
      emit (EvConnectTCP "0.0.0.0" (middleport i)) ;;;
      ret (Some i)
  end.

(** [DockerProxyServer.connectionLost] for a session whose
    [self.dockerinstance] is [dockerinstance]; the value is the field
    after the call. *)
Definition connectionLost (dockerinstance : option DockerInstance)
  : M (option DockerInstance) :=
  match dockerinstance with
  | Some i => destroy i
  | None => ret tt
  end ;;;
  emit EvSuperConnectionLost ;;;
  ret None.

(** ** Histories of the manager *)

(** The world moves on its own between two calls. *)
Definition with_world (w : World) (s : Sys) : Sys :=
  mkSys w (trace s) (next_oid s) (globalDockerPorts s).

(** States reached from [s0] by calls of [create] and [destroy] that
    come back (by a value or by an exception), with arbitrary moves of
    the world in between. *)
Inductive reachable (s0 : Sys) : Sys -> Prop :=
| reach_init : reachable s0 s0
| reach_world s w : reachable s0 s -> reachable s0 (with_world w s)
| reach_create s fuel outerport :
    reachable s0 s ->
    fst (create fuel outerport s) <> OutOfFuel ->
    reachable s0 (snd (create fuel outerport s))
| reach_destroy s instance :
    reachable s0 s ->
    reachable s0 (snd (destroy instance s)).

(** A runtime command was issued between the states [s] and [s']. *)
Definition attempted (c : Command) (s s' : Sys) : Prop :=
  exists es rc out, trace s' = es ++ trace s /\ In (EvCmd c rc out) es.

(** Only [create], [destroy] and [registerProxy] touch the registry. *)
Definition keeps_ports {A} (m : M A) : Prop :=
  forall s, globalDockerPorts (snd (m s)) = globalDockerPorts s.

(** The state in which [start] runs inside [create]: one object has
    been allocated. *)
Definition allocated (s : Sys) : Sys :=
  mkSys (world s) (trace s) (S (next_oid s)) (globalDockerPorts s).

Definition registered (imagename : string) (instance : DockerInstance) (s : Sys) : Sys :=
  mkSys (world s) (trace s) (next_oid s)
        (register imagename instance (globalDockerPorts s)).

(** Every port that serves [img] is configured with the limit [N]. *)
Definition image_limit (img : string) (N : Z) (dp : DockerPorts) : Prop :=
  forall p cfg,
    imageParams dp !! p = Some cfg -> cfg_imagename cfg = img -> cfg_limit cfg = N.

(** ** Readiness polling *)

(** What is asked of the wall clock: there is a current time [clock w]
    that no call moves backwards, [time.time()] reads a value between
    the time of the call and the time of its return, and
    [time.sleep(d)] lasts at least [d]. *)
Record ClockLaws (clock : World -> Q) : Prop := {
  time_reading : forall w,
    (clock w <= fst (clock_time w) /\
     fst (clock_time w) <= clock (snd (clock_time w)))%Q;
  connect_mono : forall p w, (clock w <= clock (snd (sock_connect p w)))%Q;
  recv_mono : forall t n w, (clock w <= clock (snd (sock_recv t n w)))%Q;
  sleep_lasts : forall d w, (clock w + d <= clock (clock_sleep d w))%Q
}.

(** Time covered by [n] sleeps of [step]. *)
Fixpoint budget (step : Q) (n : nat) : Q :=
  match n with
  | O => 0
  | S n' => (budget step n' + step)%Q
  end.

(** Iterations that the default timeout and step allow, plus the one
    that sees the deadline passed. *)
Definition poll_bound : nat := 52.

(** The calls of one [__isPortOpen] on [port], in order, with its
    value. *)
Inductive probe_events (port : Z) (readtimeout : Q) : bool -> list Event -> Prop :=
| probe_refused :
    probe_events port readtimeout false [EvConnect port false; EvClose]
| probe_error :
    probe_events port readtimeout false
      [EvConnect port true; EvSetTimeout readtimeout; EvRecv 1 None; EvClose]
| probe_data data :
    probe_events port readtimeout (Nat.ltb 0 (length data))
      [EvConnect port true; EvSetTimeout readtimeout; EvRecv 1 (Some data); EvClose].

(** The calls of the polling loop, in order, with its value: failed
    probes, each before the deadline and followed by one sleep of
    [step], closed either by a successful probe before the deadline or
    by a reading of the clock past the deadline. *)
Inductive poll_events (port : Z) (deadline step : Q) : bool -> list Event -> Prop :=
| poll_timeout t :
    ~ (t <= deadline)%Q ->
    poll_events port deadline step false [EvTime t]
| poll_ready t es :
    (t <= deadline)%Q ->
    probe_events port readtimeout_default true es ->
    poll_events port deadline step true (EvTime t :: es)
| poll_retry t es r rest :
    (t <= deadline)%Q ->
    probe_events port readtimeout_default false es ->
    poll_events port deadline step r rest ->
    poll_events port deadline step r (EvTime t :: es ++ EvSleep step :: rest).

(** The state in which readiness polling begins. *)
Definition launched (cmd : string) (id : string) (port : Z)
           (out1 out2 : string) (w : World) (s : Sys) : Sys :=
  mkSys w
        (EvPrint (MsgStarted port id)
           :: EvCmd (DockerPort id) 0 out2
           :: EvCmd (DockerRun cmd) 0 out1
           :: trace s)
        (next_oid s) (globalDockerPorts s).

(** ** Further notions: what a call emits, what the registry holds *)

(** Every event that [m] adds to the trace satisfies [P]. *)
Definition emits {A} (P : Event -> Prop) (m : M A) : Prop :=
  forall s, exists es, trace (snd (m s)) = es ++ trace s /\ Forall P es.

(** [m] allocates no object. *)
Definition keeps_oid {A} (m : M A) : Prop :=
  forall s, next_oid (snd (m s)) = next_oid s.

(** Calls on the client's transport and on the reactor. *)
Definition is_transport (e : Event) : Prop :=
  match e with
  | EvPauseProducing | EvWrite _ | EvLoseConnection
  | EvConnectTCP _ _ | EvSuperConnectionLost => True
  | _ => False
  end.

(** Commands given to the container runtime. *)
Definition is_command (e : Event) : Prop :=
  match e with
  | EvCmd _ _ _ => True
  | _ => False
  end.

(** Events of a teardown of the container [id]: log lines and the two
    commands [docker kill id] and [docker rm id]. *)
Definition is_teardown_of (id : option string) (e : Event) : Prop :=
  match e with
  | EvPrint _ => True
  | EvCmd c _ _ => c = DockerKill id \/ c = DockerRm id
  | _ => False
  end.

(** The registry holds the object [i]. *)
Definition held (i : DockerInstance) (dp : DockerPorts) : Prop :=
  (exists img l, instancesByName dp !! img = Some l /\ i ∈ l) \/
  (exists p, instancesByPort dp !! p = Some i).

(** The registry is well formed.  Each field speaks of the entries that
    exist: the objects that the registry holds (in a list or under a
    port) have been allocated; two held objects of one identity are the
    same object; every instance in the list of an image has the name of
    that image; every entry of [instancesByPort] maps a port to an
    instance whose [middleport] is that port; no list holds an instance
    twice.  Nothing is said of the converse: an instance of a list need
    not have the entry of its port (two instances with the port [None]
    share one key), nor an instance under a port be in a list. *)
Record registry_wf (s : Sys) : Prop := {
  wf_allocated : forall i,
    held i (globalDockerPorts s) -> (oid i < next_oid s)%nat;
  wf_identity : forall i j,
    held i (globalDockerPorts s) -> held j (globalDockerPorts s) ->
    oid i = oid j -> i = j;
  wf_image : forall img l i,
    instancesByName (globalDockerPorts s) !! img = Some l -> i ∈ l ->
    imagename i = img;
  wf_port : forall p i,
    instancesByPort (globalDockerPorts s) !! p = Some i -> middleport i = p;
  wf_once : forall img l,
    instancesByName (globalDockerPorts s) !! img = Some l -> NoDup l
}.

(** The registry after [destroy] has unregistered an instance whose
    image list [l] became [l']. *)
Definition unregistered (instance : DockerInstance) (l' : list DockerInstance)
           (dp : DockerPorts) : DockerPorts :=
  mkDockerPorts (delete (middleport instance) (instancesByPort dp))
                (<[imagename instance := l']> (instancesByName dp))
                (imageParams dp).

(** The registry after the [del] of [destroy] alone. *)
Definition port_deleted (instance : DockerInstance) (dp : DockerPorts) : DockerPorts :=
  mkDockerPorts (delete (middleport instance) (instancesByPort dp))
                (instancesByName dp) (imageParams dp).

(** Number of probes ([connect] calls) among the events. *)
Fixpoint probes (es : list Event) : nat :=
  match es with
  | [] => O
  | EvConnect _ _ :: es' => S (probes es')
  | _ :: es' => probes es'
  end.

End Switchboard.

(** ** The bootstrap

    The script body (lines 184-204) on a configuration that has been
    read: the sections of the parser in order, each with its options as
    [config[section][option]] gives them.  A [ConfigParser] holds a
    section name once. *)

Definition Config : Type := list (string * gmap string string).

(** What the bootstrap prints and asks of the reactor, newest first. *)
Inductive BootEvent : Type :=
| BootInvalid                                 (* invalid configfile. No docker images *)
| BootListening (outerport : Z)               (* Listening on port {} *)
| BootListenTCP (outerport : Z) (ok : bool).  (* reactor.listenTCP(outerport, ...) *)

(** How the bootstrap ends before [reactor.run()]: the exception that
    leaves the script body.  [SystemExit code] is the call
    [sys.exit(code)]; it is not the exit status of the process, which
    is 1 for each of the four. *)
Inductive BootStop : Type :=
| SystemExit (code : Z)
| BootKeyError
| BootValueError
| CannotListenError.

(** What the bootstrap calls besides the manager: [int(text)], [None]
    for its [ValueError], and [reactor.listenTCP], [false] when it
    raises [CannotListenError]. *)
Class Reactor (World : Type) : Type := {
  python_int : string -> option Z;
  listenTCP : Z -> World -> bool * World
}.

Section Bootstrap.

Context {World : Type} {RX : Reactor World}.

(** The state when the bootstrap ends: how it stopped ([None] when
    [reactor.run()] was entered), [globalDockerPorts] if it was created,
    the world, and what was printed and listened on. *)
Record Booted : Type := mkBooted {
  boot_stop : option BootStop;
  boot_ports : option DockerPorts;
  boot_world : World;
  boot_log : list BootEvent
}.

(** The arguments of [registerProxy] for one section, read in the order
    of lines 196-199: [outerport], [dockerparams], [limit]. *)
Definition section_params (options : gmap string string)
  : BootStop + (Z * string * Z) :=
  match options !! "outerport"%string with
  | None => inl BootKeyError
  | Some o =>
      match python_int o with
      | None => inl BootValueError
      | Some outerport =>
          match options !! "dockerparams"%string with
          | None => inl BootKeyError
          | Some dockerparams =>
              match options !! "limit"%string with
              | None => inl BootKeyError
              | Some l =>
                  match python_int l with
                  | None => inl BootValueError
                  | Some limit => inr (outerport, dockerparams, limit)
                  end
              end
          end
      end
  end.

(** The [for] loop of lines 195-203 and the [reactor.run()] after it. *)
Fixpoint boot_loop (images : Config) (dp : DockerPorts) (w : World)
         (log : list BootEvent) : Booted :=
  match images with
  | [] => mkBooted None (Some dp) w log
  | (imagesection, options) :: rest =>
      match section_params options with
      | inl stop => mkBooted (Some stop) (Some dp) w log
      | inr (outerport, dockerparams, limit) =>
          let dp :=
            globalDockerPorts
              (snd (registerProxy imagesection outerport dockerparams limit
                      (mkSys w [] 0 dp))) in
          let log := BootListening outerport :: log in
          let '(ok, w) := listenTCP outerport w in
          if ok then boot_loop rest dp w (BootListenTCP outerport true :: log)
          else mkBooted (Some CannotListenError) (Some dp) w
                        (BootListenTCP outerport false :: log)
      end
  end.

(** The outer port of a section whose options can be read. *)
Definition section_port (c : string * gmap string string) : option Z :=
  match section_params (snd c) with
  | inr (outerport, _, _) => Some outerport
  | inl _ => None
  end.

(** The image sections: [[n for n in config.sections() if n != "global"]]. *)
Definition image_sections (config : Config) : Config :=
  filter (fun c => fst c <> "global"%string) config.

(** The script body after [readConfig]. *)
Definition main (config : Config) (w : World) : Booted :=
  let sections := map fst config in
  if Nat.eqb (length sections) 0
     || (Nat.eqb (length sections) 1 && bool_decide ("global"%string ∈ sections))
  then mkBooted (Some (SystemExit 1)) None w [BootInvalid]
  else boot_loop (image_sections config) DockerPorts_init w [].

(** The ports on which the bootstrap listens, in the order of the
    calls. *)
Fixpoint listeners (log : list BootEvent) : list Z :=
  match log with
  | [] => []
  | BootListenTCP p true :: log' => listeners log' ++ [p]
  | _ :: log' => listeners log'
  end.

(** The process as the reactor starts serving. *)
Definition serving_state (b : Booted) (dp : DockerPorts) : Sys :=
  mkSys (boot_world b) [] 0 dp.

End Bootstrap.

(** ** Scenario states *)

(** A fresh process on the scripted world [w]. *)
Definition booted (w : Scenario.world) : Sys :=
  mkSys w [] 0 DockerPorts_init.

(** After the bootstrap of a configuration with the one section [web],
    published on port 2222 with the given limit. *)
Definition web (limit : Z) (w : Scenario.world) : Sys :=
  snd (registerProxy "web" 2222 "-P web" limit (booted w)).

(** One client of [web] has been served and is still connected. *)
Definition web_busy (limit : Z) : Sys :=
  snd (create (RT := Scenario.runtime) poll_bound 2222 (web limit Scenario.serving)).

(** The instance of that client. *)
Definition web_instance : DockerInstance :=
  mkDockerInstance 0 "-P web" "web" (Some 12345) (Some "c0ffee"%string).

(** The object left by a [start] whose [docker run] failed. *)
Definition web_unstarted : DockerInstance :=
  mkDockerInstance 0 "-P web" "web" None None.

(** A second client of [web] arrives while [docker run] fails, twice:
    two instances that were never started, both registered. *)
Definition web_two_unstarted : Sys :=
  snd (create (RT := Scenario.runtime) poll_bound 2222
         (snd (create (RT := Scenario.runtime) poll_bound 2222 (web 0 Scenario.norun)))).

(** The second of these objects. *)
Definition web_unstarted' : DockerInstance :=
  mkDockerInstance 1 "-P web" "web" None None.

(** An image whose parameters hold a brace pair that names a field, as in
    [docker run -e A={B} web]: port 2222, limit 1, nobody connected. *)
Definition web_braces : Sys :=
  snd (registerProxy "web" 2222 "-e A={B} web" 1 (booted Scenario.serving)).

(** [int(text)] on plain decimal numerals with an optional minus sign. *)
Definition int_ascii (text : string) : option Z :=
  match list_ascii_of_string (Scenario.strip_ascii text) with
  | [] => None
  | c :: num =>
      if Ascii.eqb c "-" then
        match num with
        | [] => None
        | _ => option_map Z.opp (Scenario.digits 0 num)
        end
      else Scenario.digits 0 (c :: num)
  end.

(** A reactor on which every port can be listened on. *)
Definition scenario_reactor : Reactor Scenario.world := {|
  python_int := int_ascii;
  listenTCP _ w := (true, w)
|}.

(** The options of a section [web] and two configurations: one with
    that section, one with the section [global] alone. *)
Definition web_options : gmap string string :=
  <["outerport"%string := "2222"%string]>
    (<["dockerparams"%string := "-P web"%string]>
       (<["limit"%string := "1"%string]> ∅)).

Definition web_config : Config :=
  [("global"%string, ∅); ("web"%string, web_options)].

Definition global_config : Config :=
  [("global"%string, ∅)].

Section Properties.

Context {World : Type} {RT : Runtime World}.

(** ** Frame lemmas: only [create], [destroy] and [registerProxy] touch
    the registry *)

Lemma keeps_ports_ret {A} (a : A) : keeps_ports (World := World) (ret a).
Proof. intros s; reflexivity. Qed.

Lemma keeps_ports_raise {A} e : keeps_ports (World := World) (raise (A := A) e).
Proof. intros s; reflexivity. Qed.

Lemma keeps_ports_diverge {A} : keeps_ports (World := World) (diverge (A := A)).
Proof. intros s; reflexivity. Qed.

Lemma keeps_ports_bind {A B} (m : M (World := World) A) (k : A -> M B) :
  keeps_ports m -> (forall a, keeps_ports (k a)) -> keeps_ports (bind m k).
Proof.
  intros Hm Hk s. unfold bind. specialize (Hm s).
  destruct (m s) as [[a|e|] s1]; simpl in *; try assumption.
  rewrite Hk. assumption.
Qed.

Lemma keeps_ports_emit e : keeps_ports (World := World) (emit e).
Proof. intros s; reflexivity. Qed.

Lemma keeps_ports_print m : keeps_ports (World := World) (print m).
Proof. intros s; reflexivity. Qed.

Lemma keeps_ports_fresh_oid : keeps_ports (World := World) fresh_oid.
Proof. intros s; reflexivity. Qed.

Lemma keeps_ports_run_command c : keeps_ports (run_command c).
Proof.
  intros s. unfold run_command.
  destruct (getstatusoutput c (world s)) as [[rc out] w]. reflexivity.
Qed.

Lemma keeps_ports_connect p : keeps_ports (connect p).
Proof.
  intros s. unfold connect.
  destruct (sock_connect p (world s)) as [ok w]. reflexivity.
Qed.

Lemma keeps_ports_recv t n : keeps_ports (recv t n).
Proof.
  intros s. unfold recv.
  destruct (sock_recv t n (world s)) as [d w]. reflexivity.
Qed.

Lemma keeps_ports_time : keeps_ports time.
Proof.
  intros s. unfold time.
  destruct (clock_time (world s)) as [t w]. reflexivity.
Qed.

Lemma keeps_ports_sleep d : keeps_ports (World := World) (sleep d).
Proof. intros s; reflexivity. Qed.

Create HintDb frame.
#[local] Hint Resolve keeps_ports_ret keeps_ports_raise keeps_ports_diverge
  keeps_ports_emit keeps_ports_print keeps_ports_fresh_oid
  keeps_ports_run_command keeps_ports_connect keeps_ports_recv
  keeps_ports_time keeps_ports_sleep : frame.

Ltac frame :=
  repeat first
    [ solve [ auto with frame ]
    | apply keeps_ports_bind; [ | intros ? ]
    | match goal with
      | |- keeps_ports (if ?b then _ else _) => destruct b
      | |- keeps_ports (match ?o with Some _ => _ | None => _ end) => destruct o
      end ].

Lemma keeps_ports_stop self : keeps_ports (stop self).
Proof. unfold stop. frame. Qed.

Lemma keeps_ports_isPortOpen self t : keeps_ports (isPortOpen self t).
Proof. unfold isPortOpen. frame. Qed.

Lemma keeps_ports_waitLoop fuel self started timeout step :
  keeps_ports (waitLoop fuel self started timeout step).
Proof.
  induction fuel as [|fuel IH]; simpl.
  - auto with frame.
  - pose proof (keeps_ports_isPortOpen self readtimeout_default). frame.
Qed.

Lemma keeps_ports_waitForOpenPort fuel self timeout step :
  keeps_ports (waitForOpenPort fuel self timeout step).
Proof.
  unfold waitForOpenPort.
  pose proof (fun st => keeps_ports_waitLoop fuel self st timeout step). frame.
Qed.

Lemma keeps_ports_start fuel self : keeps_ports (start fuel self).
Proof.
  unfold start.
  pose proof keeps_ports_stop.
  pose proof (keeps_ports_waitForOpenPort fuel).
  destruct (format0 _); frame.
Qed.

(** ** The admission check *)

Lemma reached_limit_Some dp img lim :
  0 < lim -> lim <= Z.of_nat (live_count img dp) ->
  reached_limit dp img lim = Some (live_count img dp).
Proof.
  intros Hpos Hle. unfold reached_limit, live_count in *.
  destruct (Z.ltb_spec 0 lim); [|lia].
  destruct (instancesByName dp !! img) as [l|]; simpl in *; [|lia].
  destruct (Z.leb_spec lim (Z.of_nat (length l))); [reflexivity|lia].
Qed.

Lemma reached_limit_below dp img lim :
  Z.of_nat (live_count img dp) < lim -> reached_limit dp img lim = None.
Proof.
  intros Hlt. unfold reached_limit, live_count in *.
  destruct (0 <? lim); [|reflexivity].
  destruct (instancesByName dp !! img) as [l|]; [|reflexivity].
  destruct (Z.leb_spec lim (Z.of_nat (length l))); [lia|reflexivity].
Qed.

Lemma reached_limit_nonpos dp img lim :
  lim <= 0 -> reached_limit dp img lim = None.
Proof.
  intros Hle. unfold reached_limit.
  destruct (Z.ltb_spec 0 lim); [lia|reflexivity].
Qed.

Lemma create_lookup fuel outerport s cfg :
  imageParams (globalDockerPorts s) !! outerport = Some cfg ->
  create fuel outerport s =
    match reached_limit (globalDockerPorts s) (cfg_imagename cfg) (cfg_limit cfg) with
    | Some icount =>
        (Returned None,
         mkSys (world s)
               (EvPrint (MsgReachedMax (cfg_limit cfg) icount (cfg_imagename cfg))
                  :: trace s)
               (next_oid s) (globalDockerPorts s))
    | None => create_admitted fuel (cfg_imagename cfg) (cfg_params cfg) s
    end.
Proof.
  intros Hcfg. unfold create, bind, get_ports. rewrite Hcfg.
  destruct (reached_limit _ _ _); reflexivity.
Qed.

Lemma create_unregistered fuel outerport s :
  imageParams (globalDockerPorts s) !! outerport = None ->
  create fuel outerport s = (Raised KeyError, s).
Proof.
  intros Hcfg. unfold create, bind, get_ports. rewrite Hcfg. reflexivity.
Qed.

(** [create] past the admission check follows [start], whatever
    [start] returns. *)
Lemma create_admitted_start fuel img params s :
  create_admitted fuel img params s =
    match start fuel (mkDockerInstance (next_oid s) params img None None)
                (allocated s) with
    | (Returned started, s1) =>
        (Returned (Some (snd started)), registered img (snd started) s1)
    | (Raised e, s1) => (Raised e, s1)
    | (OutOfFuel, s1) => (OutOfFuel, s1)
    end.
Proof.
  unfold create_admitted, DockerInstance_new, bind, fresh_oid, ret. simpl.
  fold (allocated s).
  destruct (start _ _ _) as [[started| |] s1]; reflexivity.
Qed.

(** ** Registration and removal *)

Lemma register_imageParams img inst dp :
  imageParams (register img inst dp) = imageParams dp.
Proof. reflexivity. Qed.

Lemma register_byName img inst dp :
  instancesByName (register img inst dp) !! img =
    Some (default [] (instancesByName dp !! img) ++ [inst]).
Proof.
  unfold register; simpl.
  rewrite lookup_insert_eq.
  destruct (instancesByName dp !! img) as [l|] eqn:E.
  - rewrite E. reflexivity.
  - rewrite lookup_insert_eq. reflexivity.
Qed.

Lemma register_byName_other img img' inst dp :
  img <> img' ->
  instancesByName (register img inst dp) !! img' = instancesByName dp !! img'.
Proof.
  intros Hne. unfold register; simpl.
  rewrite lookup_insert_ne by assumption.
  destruct (instancesByName dp !! img); [reflexivity|].
  rewrite lookup_insert_ne by assumption. reflexivity.
Qed.

Lemma register_byPort img inst dp :
  instancesByPort (register img inst dp) =
    <[middleport inst := inst]> (instancesByPort dp).
Proof. reflexivity. Qed.

Lemma register_live_count img inst dp :
  live_count img (register img inst dp) = S (live_count img dp).
Proof.
  unfold live_count. rewrite register_byName.
  destruct (instancesByName dp !! img) as [l|]; simpl;
    [rewrite length_app; simpl; lia | reflexivity].
Qed.

Lemma register_live_count_other img img' inst dp :
  img <> img' -> live_count img' (register img inst dp) = live_count img' dp.
Proof.
  intros Hne. unfold live_count. rewrite register_byName_other by assumption.
  reflexivity.
Qed.

Lemma list_remove_length x l l' :
  list_remove x l = Some l' -> length l = S (length l').
Proof.
  revert l'. induction l as [|y l IH]; simpl; intros l' H; [discriminate|].
  destruct (Nat.eqb (oid y) (oid x)).
  - injection H as <-. reflexivity.
  - destruct (list_remove x l) as [l0|]; simpl in H; [|discriminate].
    injection H as <-. simpl. f_equal. apply IH. reflexivity.
Qed.

Lemma reached_limit_None_inv dp img lim :
  reached_limit dp img lim = None ->
  lim <= 0 \/ Z.of_nat (live_count img dp) < lim.
Proof.
  unfold reached_limit, live_count.
  destruct (Z.ltb_spec 0 lim); [|left; lia].
  destruct (instancesByName dp !! img) as [l|]; [|right; simpl; lia].
  destruct (Z.leb_spec lim (Z.of_nat (length l))); [discriminate|right; lia].
Qed.

Lemma start_ports fuel self s :
  globalDockerPorts (snd (start fuel self s)) = globalDockerPorts s.
Proof. apply keeps_ports_start. Qed.

Lemma create_admitted_ports fuel img params s :
  globalDockerPorts (snd (create_admitted fuel img params s)) = globalDockerPorts s
  \/ exists inst,
      fst (create_admitted fuel img params s) = Returned (Some inst) /\
      globalDockerPorts (snd (create_admitted fuel img params s)) =
        register img inst (globalDockerPorts s).
Proof.
  rewrite create_admitted_start.
  pose proof (start_ports fuel (mkDockerInstance (next_oid s) params img None None)
                (allocated s)) as Hp.
  destruct (start _ _ _) as [[started| |] s1]; simpl in *; auto.
  right. exists (snd started). rewrite Hp. auto.
Qed.

Lemma create_imageParams fuel outerport s :
  imageParams (globalDockerPorts (snd (create fuel outerport s))) =
    imageParams (globalDockerPorts s).
Proof.
  destruct (imageParams (globalDockerPorts s) !! outerport) as [cfg|] eqn:Hcfg.
  - rewrite (create_lookup _ _ _ _ Hcfg).
    destruct (reached_limit _ _ _); [reflexivity|].
    destruct (create_admitted_ports fuel (cfg_imagename cfg) (cfg_params cfg) s)
      as [-> | (inst & _ & ->)]; reflexivity.
  - rewrite create_unregistered by assumption. reflexivity.
Qed.

Lemma create_preserves_bound img N fuel outerport s :
  0 < N ->
  image_limit img N (globalDockerPorts s) ->
  Z.of_nat (live_count img (globalDockerPorts s)) <= N ->
  Z.of_nat (live_count img (globalDockerPorts (snd (create fuel outerport s)))) <= N.
Proof.
  intros HN Hlim Hle.
  destruct (imageParams (globalDockerPorts s) !! outerport) as [cfg|] eqn:Hcfg.
  - rewrite (create_lookup _ _ _ _ Hcfg).
    destruct (reached_limit _ _ _) eqn:Hr; [assumption|].
    destruct (create_admitted_ports fuel (cfg_imagename cfg) (cfg_params cfg) s)
      as [-> | (inst & _ & ->)]; [assumption|].
    destruct (decide (cfg_imagename cfg = img)) as [<-|Hne].
    + rewrite register_live_count.
      rewrite (Hlim _ _ Hcfg eq_refl) in Hr.
      apply reached_limit_None_inv in Hr. lia.
    + rewrite register_live_count_other by assumption. assumption.
  - rewrite create_unregistered by assumption. assumption.
Qed.

Lemma destroy_ports instance s :
  let dp := globalDockerPorts s in
  let dp' := globalDockerPorts (snd (destroy instance s)) in
  imageParams dp' = imageParams dp /\
  forall img, (live_count img dp' <= live_count img dp)%nat.
Proof.
  unfold destroy, bind.
  pose proof (keeps_ports_stop instance s) as Hp.
  assert (Hsame : forall bp,
    imageParams (mkDockerPorts bp (instancesByName (globalDockerPorts s))
                               (imageParams (globalDockerPorts s))) =
      imageParams (globalDockerPorts s) /\
    forall img,
      (live_count img (mkDockerPorts bp (instancesByName (globalDockerPorts s))
                                     (imageParams (globalDockerPorts s)))
       <= live_count img (globalDockerPorts s))%nat).
  { intros bp. split; [reflexivity|]. intros img. unfold live_count; simpl. lia. }
  destruct (stop instance s) as [[b|e|] s1]; simpl in *; rewrite <- Hp;
    try (split; [reflexivity | intros; lia]).
  rewrite Hp.
  destruct (instancesByPort (globalDockerPorts s) !! middleport instance);
    simpl; [|rewrite Hp; split; [reflexivity | intros; lia]].
  destruct (instancesByName (globalDockerPorts s) !! imagename instance)
    as [l|] eqn:Hl; simpl; [|apply Hsame].
  destruct (list_remove instance l) as [l'|] eqn:Hrm; simpl; [|apply Hsame].
  split; [reflexivity|]. intros img. unfold live_count; simpl.
  destruct (decide (imagename instance = img)) as [<-|Hne].
  - rewrite lookup_insert_eq, Hl. apply list_remove_length in Hrm. lia.
  - rewrite lookup_insert_ne by assumption. lia.
Qed.

Lemma reachable_imageParams s0 s :
  reachable s0 s ->
  imageParams (globalDockerPorts s) = imageParams (globalDockerPorts s0).
Proof.
  induction 1 as [|s w _ IH|s fuel p _ IH _|s i _ IH]; simpl.
  - reflexivity.
  - assumption.
  - rewrite create_imageParams. assumption.
  - rewrite (proj1 (destroy_ports i s)). assumption.
Qed.

Lemma reachable_bound img N s0 s :
  0 < N ->
  image_limit img N (globalDockerPorts s0) ->
  Z.of_nat (live_count img (globalDockerPorts s0)) <= N ->
  reachable s0 s ->
  Z.of_nat (live_count img (globalDockerPorts s)) <= N.
Proof.
  intros HN Hlim H0 Hreach.
  induction Hreach as [|s w _ IH|s fuel p Hr IH _|s i _ IH]; simpl.
  - assumption.
  - assumption.
  - apply create_preserves_bound; try assumption.
    unfold image_limit. rewrite (reachable_imageParams _ _ Hr). exact Hlim.
  - pose proof (proj2 (destroy_ports i s) img). simpl in *. lia.
Qed.

(** ** Readiness polling, proved *)

Lemma isPortOpen_eq self port t s :
  middleport self = Some port ->
  isPortOpen self t s =
    let c := sock_connect port (world s) in
    if fst c then
      let d := sock_recv t 1 (snd c) in
      (Returned (match fst d with
                 | Some data => Nat.ltb 0 (length data)
                 | None => false
                 end),
       mkSys (snd d)
             (EvClose :: EvRecv 1 (fst d) :: EvSetTimeout t
                :: EvConnect port true :: trace s)
             (next_oid s) (globalDockerPorts s))
    else
      (Returned false,
       mkSys (snd c) (EvClose :: EvConnect port false :: trace s)
             (next_oid s) (globalDockerPorts s)).
Proof.
  intros Hp. unfold isPortOpen. rewrite Hp.
  unfold bind, connect, recv, emit, ret; simpl.
  destruct (sock_connect port (world s)) as [[|] w1]; simpl; [|reflexivity].
  destruct (sock_recv t 1 w1) as [[data|] w2]; reflexivity.
Qed.

Lemma isPortOpen_events self port t s :
  middleport self = Some port ->
  exists r s' es,
    isPortOpen self t s = (Returned r, s') /\
    trace s' = rev es ++ trace s /\
    probe_events port t r es /\
    next_oid s' = next_oid s.
Proof.
  intros Hp. rewrite (isPortOpen_eq _ _ _ _ Hp). simpl.
  destruct (sock_connect port (world s)) as [[|] w1]; simpl.
  - destruct (sock_recv t 1 w1) as [[data|] w2]; simpl.
    + eexists _, _, _. split; [reflexivity|]. split; [|split; [apply probe_data|reflexivity]].
      reflexivity.
    + eexists _, _, _. split; [reflexivity|]. split; [|split; [apply probe_error|reflexivity]].
      reflexivity.
  - eexists _, _, _. split; [reflexivity|]. split; [|split; [apply probe_refused|reflexivity]].
    reflexivity.
Qed.

Lemma isPortOpen_clock clock self port t s :
  ClockLaws clock ->
  middleport self = Some port ->
  (clock (world s) <= clock (world (snd (isPortOpen self t s))))%Q.
Proof.
  intros L Hp. rewrite (isPortOpen_eq _ _ _ _ Hp). simpl.
  pose proof (connect_mono _ L port (world s)) as Hc.
  destruct (sock_connect port (world s)) as [[|] w1]; simpl in *; [|assumption].
  pose proof (recv_mono _ L t 1%nat w1) as Hr.
  destruct (sock_recv t 1 w1) as [d w2]; simpl in *. lra.
Qed.

Lemma waitLoop_events fuel self port started timeout step s r s' :
  middleport self = Some port ->
  waitLoop fuel self started timeout step s = (Returned r, s') ->
  exists es,
    trace s' = rev es ++ trace s /\
    poll_events port (started + timeout)%Q step r es.
Proof.
  intros Hp. revert s.
  induction fuel as [|fuel IH]; intros s; simpl; [discriminate|].
  unfold bind at 1. unfold time.
  destruct (clock_time (world s)) as [t w1].
  destruct (Qle_bool t (started + timeout)%Q) eqn:Ht.
  - apply Qle_bool_iff in Ht.
    unfold bind at 1.
    destruct (isPortOpen_events self port readtimeout_default
                (mkSys w1 (EvTime t :: trace s) (next_oid s) (globalDockerPorts s)) Hp)
      as (ro & s1 & es & -> & Htr & Hev & _).
    destruct ro.
    + intros [= <- <-]. exists (EvTime t :: es). split.
      * rewrite Htr. simpl. rewrite <- app_assoc. reflexivity.
      * apply poll_ready; assumption.
    + unfold bind at 1, sleep. intros Hrest.
      apply IH in Hrest as (rest & Htr' & Hpoll). simpl in Htr'.
      exists (EvTime t :: es ++ EvSleep step :: rest). split.
      * rewrite Htr', Htr. simpl. rewrite rev_app_distr. simpl.
        repeat rewrite <- app_assoc. reflexivity.
      * apply poll_retry; assumption.
  - intros [= <- <-]. exists [EvTime t]. split; [reflexivity|].
    apply poll_timeout. intros Hle. apply Qle_bool_iff in Hle. congruence.
Qed.

Lemma waitLoop_returns clock self port started timeout step n :
  ClockLaws clock ->
  middleport self = Some port ->
  forall fuel s,
    (n < fuel)%nat ->
    (started + timeout - clock (world s) < budget step n)%Q ->
    exists r s', waitLoop fuel self started timeout step s = (Returned r, s').
Proof.
  intros L Hp.
  induction n as [|n IH]; intros fuel s Hfuel Hbud;
    (destruct fuel as [|fuel]; [lia|]); simpl in *.
  - unfold bind at 1, time.
    pose proof (time_reading _ L (world s)) as [Ht _].
    destruct (clock_time (world s)) as [t w1]; simpl in *.
    destruct (Qle_bool t (started + timeout)%Q) eqn:Hle.
    + apply Qle_bool_iff in Hle. lra.
    + eexists _, _. reflexivity.
  - unfold bind at 1, time.
    pose proof (time_reading _ L (world s)) as [Ht Ht'].
    destruct (clock_time (world s)) as [t w1] eqn:Et; simpl in *.
    destruct (Qle_bool t (started + timeout)%Q) eqn:Hle.
    + unfold bind at 1.
      pose proof (isPortOpen_clock clock self port readtimeout_default
                    (mkSys w1 (EvTime t :: trace s) (next_oid s) (globalDockerPorts s))
                    L Hp) as Hclk.
      destruct (isPortOpen_events self port readtimeout_default
                  (mkSys w1 (EvTime t :: trace s) (next_oid s) (globalDockerPorts s)) Hp)
        as (ro & s1 & es & Heq & _).
      rewrite Heq in *. simpl in Hclk.
      destruct ro; [eexists _, _; reflexivity|].
      unfold bind at 1, sleep.
      apply IH; [lia|]. simpl.
      pose proof (sleep_lasts _ L step (world s1)). lra.
    + eexists _, _. reflexivity.
Qed.

(** A polling that gives up ends on a reading of the clock past the
    deadline; a polling that succeeds ends on a probe. *)
Lemma poll_events_timeout port deadline step es :
  poll_events port deadline step false es ->
  exists t, last es = Some (EvTime t) /\ ~ (t <= deadline)%Q.
Proof.
  intros H. remember false as r eqn:Hr.
  induction H as [t Ht|t es Ht Hp|t es r rest Ht Hp Hrest IH].
  - exists t. split; [reflexivity|assumption].
  - discriminate.
  - destruct (IH Hr) as (t' & Hlast & Hlate). exists t'. split; [|assumption].
    change (EvTime t :: es ++ EvSleep step :: rest)
      with ([EvTime t] ++ es ++ [EvSleep step] ++ rest).
    rewrite !last_app, Hlast. reflexivity.
Qed.

Lemma poll_events_ready port deadline step es :
  poll_events port deadline step true es ->
  exists t probe before,
    es = before ++ EvTime t :: probe /\
    (t <= deadline)%Q /\
    probe_events port readtimeout_default true probe.
Proof.
  intros H. remember true as r eqn:Hr.
  induction H as [t Ht|t es Ht Hp|t es r rest Ht Hp Hrest IH].
  - discriminate.
  - exists t, es, []. split; [reflexivity|]. split; assumption.
  - destruct (IH Hr) as (t' & probe & before & -> & Hle & Hev).
    exists t', probe, (EvTime t :: es ++ EvSleep step :: before).
    split; [|split; assumption].
    simpl. rewrite <- app_assoc. reflexivity.
Qed.

Lemma budget_default : (timeout_default < budget step_default 51)%Q.
Proof. vm_compute. reflexivity. Qed.

Lemma waitForOpenPort_returns clock self port fuel s :
  ClockLaws clock ->
  middleport self = Some port ->
  (poll_bound <= fuel)%nat ->
  exists r s',
    waitForOpenPort fuel self timeout_default step_default s = (Returned r, s').
Proof.
  intros L Hp Hfuel. unfold waitForOpenPort, bind at 1, time.
  pose proof (time_reading _ L (world s)) as [_ Ht].
  destruct (clock_time (world s)) as [t w1]; simpl in *.
  apply (waitLoop_returns clock self port t timeout_default step_default 51 L Hp).
  - unfold poll_bound in Hfuel. lia.
  - simpl world. pose proof budget_default. lra.
Qed.

Lemma waitForOpenPort_events fuel self port timeout step s r s' :
  middleport self = Some port ->
  waitForOpenPort fuel self timeout step s = (Returned r, s') ->
  exists started es,
    trace s' = rev es ++ EvTime started :: trace s /\
    poll_events port (started + timeout)%Q step r es.
Proof.
  intros Hp. unfold waitForOpenPort, bind at 1, time.
  destruct (clock_time (world s)) as [t w1]. intros Hloop.
  apply (waitLoop_events _ _ _ _ _ _ _ _ _ Hp) in Hloop as (es & Htr & Hev).
  exists t, es. split; assumption.
Qed.

(** ** [stop] and [start], case by case *)

Lemma stop_eq self s :
  stop self s =
    let kill := getstatusoutput (DockerKill (instanceid self)) (world s) in
    let killed :=
      EvCmd (DockerKill (instanceid self)) (fst (fst kill)) (snd (fst kill))
        :: EvPrint (MsgKilling (instanceid self) (middleport self)) :: trace s in
    if fst (fst kill) =? 0 then
      let rm := getstatusoutput (DockerRm (instanceid self)) (snd kill) in
      let removed :=
        EvCmd (DockerRm (instanceid self)) (fst (fst rm)) (snd (fst rm)) :: killed in
      if fst (fst rm) =? 0 then
        (Returned true,
         mkSys (snd rm) removed (next_oid s) (globalDockerPorts s))
      else
        (Returned false,
         mkSys (snd rm)
               (EvPrint (MsgFailedRemove (middleport self) (instanceid self)) :: removed)
               (next_oid s) (globalDockerPorts s))
    else
      (Returned false,
       mkSys (snd kill)
             (EvPrint (MsgFailedStop (middleport self) (instanceid self)) :: killed)
             (next_oid s) (globalDockerPorts s)).
Proof.
  unfold stop, bind, print, emit, run_command, ret; simpl.
  destruct (getstatusoutput (DockerKill (instanceid self)) (world s))
    as [[rc out] w1]; simpl.
  destruct (rc =? 0); simpl; [|reflexivity].
  destruct (getstatusoutput (DockerRm (instanceid self)) w1)
    as [[rc' out'] w2]; simpl.
  destruct (rc' =? 0); reflexivity.
Qed.

Lemma stop_returns self s :
  exists ok, fst (stop self s) = Returned ok.
Proof.
  rewrite stop_eq. simpl.
  destruct (_ =? 0); [destruct (_ =? 0)|]; eexists; reflexivity.
Qed.

Lemma stop_attempts_kill self s :
  attempted (DockerKill (instanceid self)) s (snd (stop self s)).
Proof.
  rewrite stop_eq. cbv zeta.
  destruct (_ =? 0); [destruct (_ =? 0)|]; simpl.
  - eexists [_; _; _], _, _. split; [reflexivity|]. right. left. reflexivity.
  - eexists [_; _; _; _], _, _. split; [reflexivity|]. right. right. left. reflexivity.
  - eexists [_; _; _], _, _. split; [reflexivity|]. right. left. reflexivity.
Qed.

Lemma start_unformattable fuel self s e :
  format0 (run_text (dockerparams self)) = inl e ->
  start fuel self s = (Raised e, s).
Proof. intros Hfmt. unfold start. rewrite Hfmt. reflexivity. Qed.

Lemma start_launched fuel self s cmd out1 w1 out2 w2 port :
  format0 (run_text (dockerparams self)) = inr cmd ->
  getstatusoutput (DockerRun cmd) (world s) = ((0, out1), w1) ->
  getstatusoutput (DockerPort (strip out1)) w1 = ((0, out2), w2) ->
  parse_port out2 = Some port ->
  let id := strip out1 in
  let self' := set_middleport (set_instanceid self id) port in
  start fuel self s =
    match waitForOpenPort fuel self' timeout_default step_default
            (launched cmd id port out1 out2 w2 s) with
    | (Returned true, s3) => (Returned (Some id, self'), s3)
    | (Returned false, s3) => (Returned (None, self'), snd (stop self' s3))
    | (Raised e, s3) => (Raised e, s3)
    | (OutOfFuel, s3) => (OutOfFuel, s3)
    end.
Proof.
  intros Hfmt Hrun Hport Hparse id self'.
  unfold start. rewrite Hfmt. unfold bind at 1, run_command at 1. rewrite Hrun. simpl.
  unfold bind at 1, run_command at 1. simpl. rewrite Hport. simpl.
  rewrite Hparse.
  unfold bind at 1, print at 1, emit. simpl.
  fold id. fold self'. fold (launched cmd id port out1 out2 w2 s).
  unfold bind at 1.
  destruct (waitForOpenPort _ _ _ _ _) as [[[|]| |] s3]; try reflexivity.
  unfold bind. destruct (stop_returns self' s3) as [ok Hok].
  destruct (stop self' s3) as [r s4]; simpl in *. subst r. reflexivity.
Qed.

Lemma start_launch_failed fuel self s cmd rc out w :
  format0 (run_text (dockerparams self)) = inr cmd ->
  getstatusoutput (DockerRun cmd) (world s) = ((rc, out), w) ->
  rc <> 0 ->
  start fuel self s =
    (Returned (None, self),
     mkSys w
           (EvPrint (MsgRcOut rc out) :: EvPrint MsgFailedStart
              :: EvCmd (DockerRun cmd) rc out :: trace s)
           (next_oid s) (globalDockerPorts s)).
Proof.
  intros Hfmt Hrun Hrc. unfold start. rewrite Hfmt.
  unfold bind at 1, run_command at 1. rewrite Hrun. simpl.
  destruct (Z.eqb_spec rc 0); [contradiction|]. reflexivity.
Qed.

Lemma start_returns clock fuel self s cmd :
  ClockLaws clock ->
  (poll_bound <= fuel)%nat ->
  format0 (run_text (dockerparams self)) = inr cmd ->
  exists started s', start fuel self s = (Returned started, s').
Proof.
  intros L Hfuel Hfmt. unfold start. rewrite Hfmt. unfold bind at 1, run_command at 1.
  destruct (getstatusoutput (DockerRun cmd) (world s))
    as [[rc out] w1]; simpl.
  destruct (rc =? 0); simpl; [|eexists _, _; reflexivity].
  unfold bind at 1, run_command at 1; simpl.
  destruct (getstatusoutput (DockerPort (strip out)) w1) as [[rc2 out2] w2]; simpl.
  destruct (rc2 =? 0); simpl; [|eexists _, _; reflexivity].
  destruct (parse_port out2) as [port|].
  - unfold bind at 1, print at 1, emit; simpl.
    unfold bind at 1.
    match goal with
    | |- context [waitForOpenPort fuel ?i ?t ?st ?s0] =>
        destruct (waitForOpenPort_returns clock i port fuel s0 L eq_refl Hfuel)
          as (r & s3 & ->)
    end.
    destruct r; [eexists _, _; reflexivity|].
    unfold bind at 1.
    match goal with
    | |- context [stop ?i ?s0] =>
        destruct (stop_returns i s0) as [ok Hok];
        destruct (stop i s0) as [r4 s4]; simpl in Hok; subst r4
    end.
    eexists _, _; reflexivity.
  - unfold bind at 1, print at 1, emit; simpl.
    unfold bind at 1.
    match goal with
    | |- context [stop ?i ?s0] =>
        destruct (stop_returns i s0) as [ok Hok];
        destruct (stop i s0) as [r4 s4]; simpl in Hok; subst r4
    end.
    eexists _, _; reflexivity.
Qed.

Lemma create_admitted_returns clock fuel img params s cmd :
  ClockLaws clock ->
  (poll_bound <= fuel)%nat ->
  format0 (run_text params) = inr cmd ->
  exists inst s1,
    create_admitted fuel img params s =
      (Returned (Some inst), registered img inst s1) /\
    globalDockerPorts s1 = globalDockerPorts s.
Proof.
  intros L Hfuel Hfmt. rewrite create_admitted_start.
  pose proof (start_ports fuel (mkDockerInstance (next_oid s) params img None None)
                (allocated s)) as Hp.
  destruct (start_returns clock fuel
              (mkDockerInstance (next_oid s) params img None None) (allocated s) cmd
              L Hfuel Hfmt) as (started & s1 & Hs).
  rewrite Hs in *. simpl in Hp. eexists _, _. split; [reflexivity|assumption].
Qed.

Lemma create_admitted_unformattable fuel img params s e :
  format0 (run_text params) = inl e ->
  create_admitted fuel img params s = (Raised e, allocated s).
Proof.
  intros Hfmt. rewrite create_admitted_start.
  rewrite (start_unformattable _ _ _ e) by exact Hfmt. reflexivity.
Qed.

(** What [create] gives once past the admission check, with fuel enough
    for the polling: an instance when the launch command can be
    formatted, the exception of [str.format] when it cannot. *)
Lemma create_admitted_outcome clock fuel img params s :
  ClockLaws clock ->
  (poll_bound <= fuel)%nat ->
  match format0 (run_text params) with
  | inr _ => exists inst, fst (create_admitted fuel img params s) = Returned (Some inst)
  | inl e => fst (create_admitted fuel img params s) = Raised e
  end.
Proof.
  intros L Hfuel. destruct (format0 (run_text params)) as [e|cmd] eqn:Hfmt.
  - rewrite (create_admitted_unformattable _ _ _ _ _ Hfmt). reflexivity.
  - destruct (create_admitted_returns clock fuel img params s cmd L Hfuel Hfmt)
      as (inst & s1 & -> & _).
    exists inst. reflexivity.
Qed.

Lemma create_admitted_not_denied fuel img params s :
  fst (create_admitted fuel img params s) <> Returned None.
Proof.
  rewrite create_admitted_start.
  destruct (start _ _ _) as [[started| |] s1]; simpl; discriminate.
Qed.

(** The part of C4 that the code keeps: after a denial the session writes
    the rejection line, closes, and holds no instance; its teardown then
    releases nothing. *)
Lemma connectionMade_denied fuel outerport s s1 :
  create fuel outerport
         (mkSys (world s) (EvPauseProducing :: trace s) (next_oid s)
                (globalDockerPorts s)) = (Returned None, s1) ->
  connectionMade fuel outerport s =
    (Returned None,
     mkSys (world s1) (EvLoseConnection :: EvWrite rejection_line :: trace s1)
           (next_oid s1) (globalDockerPorts s1)).
Proof.
  intros Hc. unfold connectionMade, bind at 1, emit at 1. simpl.
  unfold bind at 1. rewrite Hc. reflexivity.
Qed.

Lemma connectionLost_unattached (s : Sys (World := World)) :
  connectionLost None s =
    (Returned None,
     mkSys (world s) (EvSuperConnectionLost :: trace s) (next_oid s)
           (globalDockerPorts s)).
Proof. reflexivity. Qed.

(** [start] fills in fields of the object it is given; it is the same
    object, of the same image. *)
Lemma start_same_object fuel self s r self' s' :
  start fuel self s = (Returned (r, self'), s') ->
  oid self' = oid self /\ imagename self' = imagename self /\
  dockerparams self' = dockerparams self.
Proof.
  unfold start, bind, ret. intros H.
  repeat case_match; simplify_eq; auto.
Qed.

(** What [create] has done once past the admission check: the instance
    it returns is the object it allocated, of the image and with the
    parameters of the port, and it is registered; when it raises,
    nothing is registered. *)
Lemma create_admitted_cases fuel img params s :
  (forall inst,
     fst (create_admitted fuel img params s) = Returned (Some inst) ->
     oid inst = next_oid s /\ imagename inst = img /\ dockerparams inst = params /\
     globalDockerPorts (snd (create_admitted fuel img params s)) =
       register img inst (globalDockerPorts s)) /\
  (forall e,
     fst (create_admitted fuel img params s) = Raised e ->
     globalDockerPorts (snd (create_admitted fuel img params s)) =
       globalDockerPorts s).
Proof.
  rewrite create_admitted_start.
  set (self := mkDockerInstance (next_oid s) params img None None).
  pose proof (start_ports fuel self (allocated s)) as Hp.
  destruct (start fuel self (allocated s)) as [[[r self']|e'|] s1] eqn:Hs;
    simpl in *; (split; [|intros e He; try discriminate; assumption]);
    intros inst He; try discriminate.
  injection He as <-.
  destruct (start_same_object _ _ _ _ _ _ Hs) as (Hoid & Himg & Hpar).
  rewrite Hp. auto.
Qed.

(** ** The claims *)

(** C1, as the code has it.  For an image whose configured limit is
    [N > 0], the number of instances registered for that image never
    exceeds [N] after any sequence of [create] and [destroy] calls (and
    any behaviour of the outside world in between).  [create] returns
    the denial [None] and leaves the registry as it is whenever the
    count has reached [N].  Otherwise it does not deny: when it returns,
    it returns the object it has just allocated, of that image, and has
    registered exactly that one instance; when it raises, it has
    registered nothing; and it does the first when the launch command
    can be formatted, the second, with the exception of [str.format],
    when it cannot. *)
Theorem concurrency_limit_never_exceeded clock img N s0 s :
  ClockLaws clock ->
  0 < N ->
  image_limit img N (globalDockerPorts s0) ->
  Z.of_nat (live_count img (globalDockerPorts s0)) <= N ->
  reachable s0 s ->
  Z.of_nat (live_count img (globalDockerPorts s)) <= N /\
  forall fuel outerport cfg,
    imageParams (globalDockerPorts s) !! outerport = Some cfg ->
    cfg_imagename cfg = img ->
    let dp := globalDockerPorts s in
    let r := create fuel outerport s in
    (N <= Z.of_nat (live_count img dp) ->
     fst r = Returned None /\ globalDockerPorts (snd r) = dp) /\
    (Z.of_nat (live_count img dp) < N ->
     fst r <> Returned None /\
     (forall inst,
        fst r = Returned (Some inst) ->
        oid inst = next_oid s /\
        imagename inst = img /\
        dockerparams inst = cfg_params cfg /\
        instancesByName (globalDockerPorts (snd r)) !! img =
          Some (default [] (instancesByName dp !! img) ++ [inst]) /\
        instancesByPort (globalDockerPorts (snd r)) =
          <[middleport inst := inst]> (instancesByPort dp) /\
        live_count img (globalDockerPorts (snd r)) = S (live_count img dp) /\
        forall img', img <> img' ->
          instancesByName (globalDockerPorts (snd r)) !! img' =
            instancesByName dp !! img') /\
     (forall e, fst r = Raised e -> globalDockerPorts (snd r) = dp) /\
     ((poll_bound <= fuel)%nat ->
      match format0 (run_text (cfg_params cfg)) with
      | inr _ => exists inst, fst r = Returned (Some inst)
      | inl e => fst r = Raised e
      end)).
Proof.
  intros L HN Hlim H0 Hreach. split.
  - eapply reachable_bound; eassumption.
  - intros fuel outerport cfg Hcfg Himg dp r. subst dp r.
    assert (HlimN : cfg_limit cfg = N).
    { apply (Hlim outerport cfg); [|assumption].
      rewrite <- (reachable_imageParams _ _ Hreach). assumption. }
    rewrite (create_lookup _ _ _ _ Hcfg). rewrite Himg, HlimN. split.
    + intros Hfull. rewrite reached_limit_Some by assumption. split; reflexivity.
    + intros Hfree. rewrite reached_limit_below by assumption.
      destruct (create_admitted_cases fuel img (cfg_params cfg) s) as [Hret Hraise].
      split; [apply create_admitted_not_denied|]. split; [|split].
      * intros inst Hinst. destruct (Hret inst Hinst) as (Hoid & Hname & Hpar & Hp).
        rewrite Hp. split; [assumption|]. split; [assumption|].
        split; [assumption|]. split; [apply register_byName|].
        split; [reflexivity|]. split; [apply register_live_count|].
        intros img' Hne. apply register_byName_other. assumption.
      * assumption.
      * intros Hfuel. apply (create_admitted_outcome clock); assumption.
Qed.

(** C5.  On a port whose image has a limit [> 0] that the count of live
    instances has reached, [create] returns the denial [None] and has no
    effect besides its log line: no object is allocated, nothing is asked
    of the container runtime, and the registry is the same. *)
Theorem create_denied_without_side_effects fuel outerport s cfg :
  imageParams (globalDockerPorts s) !! outerport = Some cfg ->
  0 < cfg_limit cfg ->
  cfg_limit cfg <= Z.of_nat (live_count (cfg_imagename cfg) (globalDockerPorts s)) ->
  create fuel outerport s =
    (Returned None,
     mkSys (world s)
           (EvPrint (MsgReachedMax (cfg_limit cfg)
                       (live_count (cfg_imagename cfg) (globalDockerPorts s))
                       (cfg_imagename cfg)) :: trace s)
           (next_oid s) (globalDockerPorts s)).
Proof.
  intros Hcfg Hpos Hfull.
  rewrite (create_lookup _ _ _ _ Hcfg), reached_limit_Some by assumption.
  reflexivity.
Qed.

(** C7.  On a port whose image has the limit 0 the admission check never
    fires, however many instances are live: [create] goes on to start an
    instance and never returns the denial [None].  With fuel enough for
    the polling it returns an instance, unless the launch command cannot
    be formatted, in which case it raises the exception of
    [str.format]. *)
Theorem create_unlimited_never_denied clock fuel outerport s cfg :
  ClockLaws clock ->
  imageParams (globalDockerPorts s) !! outerport = Some cfg ->
  cfg_limit cfg = 0 ->
  reached_limit (globalDockerPorts s) (cfg_imagename cfg) (cfg_limit cfg) = None /\
  create fuel outerport s =
    create_admitted fuel (cfg_imagename cfg) (cfg_params cfg) s /\
  fst (create fuel outerport s) <> Returned None /\
  ((poll_bound <= fuel)%nat ->
   match format0 (run_text (cfg_params cfg)) with
   | inr _ => exists inst, fst (create fuel outerport s) = Returned (Some inst)
   | inl e => fst (create fuel outerport s) = Raised e
   end).
Proof.
  intros L Hcfg Hzero.
  assert (Hr : reached_limit (globalDockerPorts s) (cfg_imagename cfg) (cfg_limit cfg)
               = None) by (apply reached_limit_nonpos; lia).
  rewrite (create_lookup _ _ _ _ Hcfg), Hr.
  split; [reflexivity|]. split; [reflexivity|].
  split; [apply create_admitted_not_denied|].
  intros Hfuel. apply (create_admitted_outcome clock); assumption.
Qed.

(** C10.  A limit that is zero or negative is never enforced: a negative
    limit lets [create] through the admission check exactly as the limit
    0 does, and [create] never returns the denial [None].  With fuel
    enough for the polling it returns an instance, unless the launch
    command cannot be formatted, in which case it raises the exception
    of [str.format]. *)
Theorem create_nonpositive_limit_never_denied clock fuel outerport s cfg :
  ClockLaws clock ->
  imageParams (globalDockerPorts s) !! outerport = Some cfg ->
  cfg_limit cfg <= 0 ->
  reached_limit (globalDockerPorts s) (cfg_imagename cfg) (cfg_limit cfg) =
    reached_limit (globalDockerPorts s) (cfg_imagename cfg) 0 /\
  create fuel outerport s =
    create_admitted fuel (cfg_imagename cfg) (cfg_params cfg) s /\
  fst (create fuel outerport s) <> Returned None /\
  ((poll_bound <= fuel)%nat ->
   match format0 (run_text (cfg_params cfg)) with
   | inr _ => exists inst, fst (create fuel outerport s) = Returned (Some inst)
   | inl e => fst (create fuel outerport s) = Raised e
   end).
Proof.
  intros L Hcfg Hneg.
  assert (Hr : reached_limit (globalDockerPorts s) (cfg_imagename cfg) (cfg_limit cfg)
               = None) by (apply reached_limit_nonpos; assumption).
  rewrite (create_lookup _ _ _ _ Hcfg), Hr.
  split; [symmetry; apply reached_limit_nonpos; lia|]. split; [reflexivity|].
  split; [apply create_admitted_not_denied|].
  intros Hfuel. apply (create_admitted_outcome clock); assumption.
Qed.

(** C3, as the code has it.  [stop] always asks the runtime to kill the
    container and always returns, never raising.  It asks for the
    removal exactly when the kill succeeded.  A failing step is logged
    and makes [stop] return [False]; [stop] returns [True] exactly when
    both steps succeeded. *)
Theorem stop_removes_only_after_kill self s :
  let kill := getstatusoutput (DockerKill (instanceid self)) (world s) in
  let rm := getstatusoutput (DockerRm (instanceid self)) (snd kill) in
  exists ok,
    fst (stop self s) = Returned ok /\
    attempted (DockerKill (instanceid self)) s (snd (stop self s)) /\
    (attempted (DockerRm (instanceid self)) s (snd (stop self s))
     <-> fst (fst kill) = 0) /\
    (ok = true <-> fst (fst kill) = 0 /\ fst (fst rm) = 0) /\
    (fst (fst kill) <> 0 ->
     hd_error (trace (snd (stop self s))) =
       Some (EvPrint (MsgFailedStop (middleport self) (instanceid self)))) /\
    (fst (fst kill) = 0 -> fst (fst rm) <> 0 ->
     hd_error (trace (snd (stop self s))) =
       Some (EvPrint (MsgFailedRemove (middleport self) (instanceid self)))).
Proof.
  intros kill rm. rewrite stop_eq. fold kill. cbv zeta. fold rm.
  destruct (Z.eqb_spec (fst (fst kill)) 0) as [Hk|Hk].
  - destruct (Z.eqb_spec (fst (fst rm)) 0) as [Hr|Hr]; eexists; simpl;
      (split; [reflexivity|]); (split; [|split; [|split; [|split]]]).
    + eexists [_; _; _], _, _. split; [reflexivity|]. right. left. reflexivity.
    + split; [auto|]. intros _.
      eexists [_; _; _], _, _. split; [reflexivity|]. left. reflexivity.
    + split; auto.
    + intros; contradiction.
    + intros; contradiction.
    + eexists [_; _; _; _], _, _. split; [reflexivity|]. right. right. left. reflexivity.
    + split; [auto|]. intros _.
      eexists [_; _; _; _], _, _. split; [reflexivity|]. right. left. reflexivity.
    + split; [discriminate|]. intros [_ ?]. contradiction.
    + intros; contradiction.
    + reflexivity.
  - eexists; simpl. split; [reflexivity|]. split; [|split; [|split; [|split]]].
    + eexists [_; _; _], _, _. split; [reflexivity|]. right. left. reflexivity.
    + split; [|intros; contradiction].
      intros (es & rc & out & Htr & Hin).
      change (?a :: ?b :: ?c :: trace s) with ([a; b; c] ++ trace s) in Htr.
      apply app_inv_tail in Htr. subst es.
      simpl in Hin. destruct Hin as [H|[H|[H|[]]]]; discriminate.
    + split; [discriminate|]. intros [? _]. contradiction.
    + reflexivity.
    + intros; contradiction.
Qed.

(** C6, as the code has it.  [registerProxy] never fails: it returns
    whether or not the port is registered already, and the configuration
    it is given replaces whatever the port had; the other ports and the
    two instance registries are untouched. *)
Theorem registerProxy_overwrites imagename outerport params limit (s : Sys (World := World)) :
  let s' := snd (registerProxy imagename outerport params limit s) in
  fst (registerProxy imagename outerport params limit s) = Returned tt /\
  imageParams (globalDockerPorts s') !! outerport =
    Some (mkImageParams imagename params limit) /\
  (forall p, p <> outerport ->
     imageParams (globalDockerPorts s') !! p =
       imageParams (globalDockerPorts s) !! p) /\
  instancesByPort (globalDockerPorts s') = instancesByPort (globalDockerPorts s) /\
  instancesByName (globalDockerPorts s') = instancesByName (globalDockerPorts s).
Proof.
  unfold registerProxy, bind, get_ports, put_ports; simpl.
  split; [reflexivity|]. split; [apply lookup_insert_eq|].
  split; [|split; reflexivity].
  intros p Hp. apply lookup_insert_ne. congruence.
Qed.

(** C8.  One readiness probe reports the backend ready if and only if
    the connection to the host port succeeds and the read under the
    per-attempt timeout yields at least one byte.  A connection from
    which zero bytes are read, and a socket error on the connection or
    on the read, give not-ready. *)
Theorem isPortOpen_iff_byte_read self port readtimeout s :
  middleport self = Some port ->
  let c := sock_connect port (world s) in
  let d := sock_recv readtimeout 1 (snd c) in
  exists ready,
    fst (isPortOpen self readtimeout s) = Returned ready /\
    (ready = true <->
     fst c = true /\ exists data, fst d = Some data /\ (0 < length data)%nat) /\
    (fst c = true -> fst d = Some [] -> ready = false) /\
    (fst c = false -> ready = false) /\
    (fst c = true -> fst d = None -> ready = false).
Proof.
  intros Hp c d. rewrite (isPortOpen_eq _ _ _ _ Hp). cbv zeta. fold c. fold d.
  destruct (fst c) eqn:Hc.
  - destruct (fst d) as [data|] eqn:Hd; eexists; simpl;
      (split; [reflexivity|]); (split; [|split; [|split]]).
    + split.
      * intros Hlt. apply Nat.ltb_lt in Hlt. split; [reflexivity|].
        exists data. split; [reflexivity|assumption].
      * intros [_ (data' & [= <-] & Hlt)]. apply Nat.ltb_lt. assumption.
    + intros _ [= ->]. reflexivity.
    + discriminate.
    + discriminate.
    + split; [discriminate|]. intros [_ (data' & Hd' & _)]. discriminate.
    + discriminate.
    + discriminate.
    + reflexivity.
  - eexists; simpl. split; [reflexivity|]. split; [|split; [|split]].
    + split; [discriminate|]. intros [? _]. discriminate.
    + discriminate.
    + reflexivity.
    + discriminate.
Qed.

(** C9.  When the launch (the launch command is formed and [docker run]
    succeeds) and the discovery of the port mapping succeed, [start]
    polls: it reads the clock, and while the deadline (the time
    of the first reading plus the total timeout) has not passed it
    probes the port, stops at the first probe that succeeds, and sleeps
    one step after each probe that fails.  The polling ends, either
    ready or with the deadline passed; in the second case [start] calls
    [stop], which asks the runtime to kill the container, and returns
    [None]. *)
Theorem start_polls_until_ready_or_timeout clock fuel self s cmd out1 w1 out2 w2 port :
  ClockLaws clock ->
  (poll_bound <= fuel)%nat ->
  format0 (run_text (dockerparams self)) = inr cmd ->
  getstatusoutput (DockerRun cmd) (world s) = ((0, out1), w1) ->
  getstatusoutput (DockerPort (strip out1)) w1 = ((0, out2), w2) ->
  parse_port out2 = Some port ->
  let id := strip out1 in
  let self' := set_middleport (set_instanceid self id) port in
  let s2 := launched cmd id port out1 out2 w2 s in
  exists started ready es s3,
    waitForOpenPort fuel self' timeout_default step_default s2 = (Returned ready, s3) /\
    trace s3 = rev es ++ EvTime started :: trace s2 /\
    poll_events port (started + timeout_default)%Q step_default ready es /\
    (ready = true -> start fuel self s = (Returned (Some id, self'), s3)) /\
    (ready = false ->
     start fuel self s = (Returned (None, self'), snd (stop self' s3)) /\
     attempted (DockerKill (Some id)) s3 (snd (stop self' s3))).
Proof.
  intros L Hfuel Hfmt Hrun Hport Hparse id self' s2.
  assert (Hmid : middleport self' = Some port) by reflexivity.
  destruct (waitForOpenPort_returns clock self' port fuel s2 L Hmid Hfuel)
    as (ready & s3 & Hwait).
  destruct (waitForOpenPort_events _ _ _ _ _ _ _ _ Hmid Hwait)
    as (started & es & Htr & Hev).
  exists started, ready, es, s3.
  split; [assumption|]. split; [assumption|]. split; [assumption|].
  pose proof (start_launched fuel self s cmd out1 w1 out2 w2 port
                Hfmt Hrun Hport Hparse) as Hstart.
  cbv zeta in Hstart. fold id in Hstart. fold self' in Hstart. fold s2 in Hstart.
  rewrite Hwait in Hstart.
  split; intros ->; [assumption|]. split; [assumption|].
  destruct (stop_attempts_kill self' s3) as (es' & rc & out & Htr' & Hin).
  exists es', rc, out. split; assumption.
Qed.

(** ** Beyond the claims *)

(** *** What the calls emit *)

Lemma emits_ret {A} P (a : A) : emits (World := World) P (ret a).
Proof. intros s. exists []. split; [reflexivity|constructor]. Qed.

Lemma emits_raise {A} P e : emits (World := World) P (raise (A := A) e).
Proof. intros s. exists []. split; [reflexivity|constructor]. Qed.

Lemma emits_diverge {A} P : emits (World := World) P (diverge (A := A)).
Proof. intros s. exists []. split; [reflexivity|constructor]. Qed.

Lemma emits_bind {A B} P (m : M (World := World) A) (k : A -> M B) :
  emits P m -> (forall a, emits P (k a)) -> emits P (bind m k).
Proof.
  intros Hm Hk s. unfold bind. destruct (Hm s) as (es & Htr & Hes).
  destruct (m s) as [[a|e|] s1]; simpl in *; try (exists es; split; assumption).
  destruct (Hk a s1) as (es' & Htr' & Hes'). exists (es' ++ es). split.
  - rewrite Htr', Htr. apply app_assoc.
  - apply Forall_app. split; assumption.
Qed.

Lemma emits_emit (P : Event -> Prop) e : P e -> emits (World := World) P (emit e).
Proof. intros He s. exists [e]. split; [reflexivity|]. repeat constructor. assumption. Qed.

Lemma emits_print (P : Event -> Prop) m :
  P (EvPrint m) -> emits (World := World) P (print m).
Proof. apply emits_emit. Qed.

Lemma emits_get_ports P : emits (World := World) P get_ports.
Proof. intros s. exists []. split; [reflexivity|constructor]. Qed.

Lemma emits_put_ports P dp : emits (World := World) P (put_ports dp).
Proof. intros s. exists []. split; [reflexivity|constructor]. Qed.

Lemma emits_fresh_oid P : emits (World := World) P fresh_oid.
Proof. intros s. exists []. split; [reflexivity|constructor]. Qed.

Lemma emits_run_command (P : Event -> Prop) c :
  (forall rc out, P (EvCmd c rc out)) -> emits P (run_command c).
Proof.
  intros HP s. unfold run_command.
  destruct (getstatusoutput c (world s)) as [[rc out] w].
  exists [EvCmd c rc out]. split; [reflexivity|]. repeat constructor. apply HP.
Qed.

Lemma emits_connect (P : Event -> Prop) p :
  (forall ok, P (EvConnect p ok)) -> emits P (connect p).
Proof.
  intros HP s. unfold connect. destruct (sock_connect p (world s)) as [ok w].
  exists [EvConnect p ok]. split; [reflexivity|]. repeat constructor. apply HP.
Qed.

Lemma emits_recv (P : Event -> Prop) t n :
  (forall d, P (EvRecv n d)) -> emits P (recv t n).
Proof.
  intros HP s. unfold recv. destruct (sock_recv t n (world s)) as [d w].
  exists [EvRecv n d]. split; [reflexivity|]. repeat constructor. apply HP.
Qed.

Lemma emits_time (P : Event -> Prop) :
  (forall t, P (EvTime t)) -> emits P time.
Proof.
  intros HP s. unfold time. destruct (clock_time (world s)) as [t w].
  exists [EvTime t]. split; [reflexivity|]. repeat constructor. apply HP.
Qed.

Lemma emits_sleep (P : Event -> Prop) d :
  P (EvSleep d) -> emits (World := World) P (sleep d).
Proof.
  intros HP s. exists [EvSleep d]. split; [reflexivity|]. repeat constructor. apply HP.
Qed.

Ltac emits :=
  repeat first
    [ assumption
    | apply emits_ret | apply emits_raise | apply emits_diverge
    | apply emits_get_ports | apply emits_put_ports | apply emits_fresh_oid
    | apply emits_print; simpl; tauto
    | apply emits_emit; simpl; tauto
    | apply emits_run_command; intros; simpl; tauto
    | apply emits_connect; intros; simpl; tauto
    | apply emits_recv; intros; simpl; tauto
    | apply emits_time; intros; simpl; tauto
    | apply emits_sleep; simpl; tauto
    | match goal with
      | H : forall _, emits _ _ |- _ => apply H
      | H : forall _ _, emits _ _ |- _ => apply H
      | H : forall _ _ _, emits _ _ |- _ => apply H
      end
    | apply emits_bind; [ | intros ? ]
    | match goal with
      | |- emits _ (if ?b then _ else _) => destruct b
      | |- emits _ (match ?o with Some _ => _ | None => _ end) => destruct o eqn:?
      | |- emits _ (match ?o with inl _ => _ | inr _ => _ end) => destruct o eqn:?
      end ].

Lemma emits_stop self :
  emits (is_teardown_of (instanceid self)) (stop self).
Proof. unfold stop. emits. Qed.

Lemma emits_weaken {A} (P Q : Event -> Prop) (m : M (World := World) A) :
  (forall e, P e -> Q e) -> emits P m -> emits Q m.
Proof.
  intros HPQ Hm s. destruct (Hm s) as (es & Htr & Hes).
  exists es. split; [assumption|]. eapply Forall_impl; eassumption.
Qed.

Lemma teardown_not_transport id e : is_teardown_of id e -> ~ is_transport e.
Proof. destruct e; simpl; tauto. Qed.

Lemma emits_isPortOpen self t :
  emits (fun e => ~ is_transport e) (isPortOpen self t).
Proof. unfold isPortOpen. emits. Qed.

Lemma emits_waitLoop fuel self started timeout step :
  emits (fun e => ~ is_transport e) (waitLoop fuel self started timeout step).
Proof.
  induction fuel as [|fuel IH]; simpl.
  - emits.
  - pose proof (emits_isPortOpen self readtimeout_default). emits.
Qed.

Lemma emits_start fuel self :
  emits (fun e => ~ is_transport e) (start fuel self).
Proof.
  assert (Hstop : forall i, emits (fun e => ~ is_transport e) (stop i)).
  { intros i. eapply emits_weaken; [apply teardown_not_transport|apply emits_stop]. }
  pose proof (fun st t sp => emits_waitLoop fuel self st t sp) as Hloop.
  assert (Hwait : forall i t sp,
             emits (fun e => ~ is_transport e) (waitForOpenPort fuel i t sp)).
  { intros i t sp. unfold waitForOpenPort.
    pose proof (fun st => emits_waitLoop fuel i st t sp). emits. }
  unfold start. emits.
Qed.

Lemma emits_create fuel outerport :
  emits (fun e => ~ is_transport e) (create fuel outerport).
Proof.
  pose proof (emits_start fuel) as Hstart.
  unfold create, create_admitted, DockerInstance_new. emits.
Qed.

Lemma emits_destroy instance :
  emits (is_teardown_of (instanceid instance)) (destroy instance).
Proof.
  pose proof (emits_stop instance) as Hstop.
  unfold destroy. emits.
Qed.

(** *** Which calls allocate *)

Lemma keeps_oid_bind {A B} (m : M (World := World) A) (k : A -> M B) :
  keeps_oid m -> (forall a, keeps_oid (k a)) -> keeps_oid (bind m k).
Proof.
  intros Hm Hk s. unfold bind. specialize (Hm s).
  destruct (m s) as [[a|e|] s1]; simpl in *; try assumption.
  rewrite Hk. assumption.
Qed.

Lemma keeps_oid_run_command c : keeps_oid (run_command c).
Proof.
  intros s. unfold run_command.
  destruct (getstatusoutput c (world s)) as [[rc out] w]. reflexivity.
Qed.

Lemma keeps_oid_connect p : keeps_oid (connect p).
Proof.
  intros s. unfold connect. destruct (sock_connect p (world s)). reflexivity.
Qed.

Lemma keeps_oid_recv t n : keeps_oid (recv t n).
Proof.
  intros s. unfold recv. destruct (sock_recv t n (world s)). reflexivity.
Qed.

Lemma keeps_oid_time : keeps_oid time.
Proof.
  intros s. unfold time. destruct (clock_time (world s)). reflexivity.
Qed.

Ltac keeps_oid :=
  repeat first
    [ assumption
    | apply keeps_oid_run_command | apply keeps_oid_connect
    | apply keeps_oid_recv | apply keeps_oid_time
    | match goal with
      | H : forall _, keeps_oid _ |- _ => apply H
      | H : forall _ _, keeps_oid _ |- _ => apply H
      | H : forall _ _ _, keeps_oid _ |- _ => apply H
      end
    | apply keeps_oid_bind; [ | intros ? ]
    | match goal with
      | |- keeps_oid (if ?b then _ else _) => destruct b
      | |- keeps_oid (match ?o with Some _ => _ | None => _ end) => destruct o eqn:?
      | |- keeps_oid (match ?o with inl _ => _ | inr _ => _ end) => destruct o eqn:?
      end
    | solve [ intros ?; reflexivity ] ].

Lemma keeps_oid_stop self : keeps_oid (stop self).
Proof. unfold stop. keeps_oid. Qed.

Lemma keeps_oid_isPortOpen self t : keeps_oid (isPortOpen self t).
Proof. unfold isPortOpen. keeps_oid. Qed.

Lemma keeps_oid_waitLoop fuel self started timeout step :
  keeps_oid (waitLoop fuel self started timeout step).
Proof.
  induction fuel as [|fuel IH]; simpl.
  - keeps_oid.
  - pose proof (keeps_oid_isPortOpen self readtimeout_default). keeps_oid.
Qed.

Lemma keeps_oid_start fuel self : keeps_oid (start fuel self).
Proof.
  pose proof keeps_oid_stop as Hstop.
  assert (Hwait : forall i t sp, keeps_oid (waitForOpenPort fuel i t sp)).
  { intros i t sp. unfold waitForOpenPort.
    pose proof (fun st => keeps_oid_waitLoop fuel i st t sp). keeps_oid. }
  unfold start. keeps_oid.
Qed.

Lemma keeps_oid_destroy instance : keeps_oid (destroy instance).
Proof.
  pose proof (keeps_oid_stop instance) as Hstop.
  unfold destroy. keeps_oid.
Qed.

(** *** [list.remove] *)

Lemma list_remove_None x l :
  list_remove x l = None <-> Forall (fun y => oid y <> oid x) l.
Proof.
  induction l as [|y l IH]; simpl.
  - split; [constructor|reflexivity].
  - destruct (Nat.eqb_spec (oid y) (oid x)) as [Heq|Hne].
    + split; [discriminate|]. intros H. inversion H; subst. contradiction.
    + destruct (list_remove x l) as [l0|]; simpl.
      * split; [discriminate|]. intros H. inversion H; subst.
        apply IH in H3. discriminate.
      * split; [|reflexivity]. intros _. constructor; [assumption|].
        apply IH. reflexivity.
Qed.

Lemma list_remove_sub x l l' :
  list_remove x l = Some l' ->
  (forall y, y ∈ l' -> y ∈ l) /\ (NoDup l -> NoDup l').
Proof.
  revert l'. induction l as [|y l IH]; simpl; intros l' H; [discriminate|].
  destruct (Nat.eqb (oid y) (oid x)).
  - injection H as <-. split.
    + intros z Hz. apply elem_of_cons. right. assumption.
    + intros Hnd. apply NoDup_cons in Hnd. tauto.
  - destruct (list_remove x l) as [l0|]; simpl in H; [|discriminate].
    injection H as <-. destruct (IH l0 eq_refl) as [Hsub Hnd]. split.
    + intros z Hz. apply elem_of_cons in Hz as [->|Hz].
      * apply elem_of_cons. left. reflexivity.
      * apply elem_of_cons. right. apply Hsub. assumption.
    + intros Hnd'. apply NoDup_cons in Hnd' as [Hy Hl].
      apply NoDup_cons. split; [|apply Hnd; assumption].
      intros Hin. apply Hy. apply Hsub. assumption.
Qed.

Lemma list_remove_last x l :
  Forall (fun y => oid y <> oid x) l -> list_remove x (l ++ [x]) = Some l.
Proof.
  induction l as [|y l IH]; simpl; intros H.
  - rewrite Nat.eqb_refl. reflexivity.
  - inversion H; subst.
    destruct (Nat.eqb_spec (oid y) (oid x)); [contradiction|].
    rewrite IH by assumption. reflexivity.
Qed.

Lemma list_remove_found x l l' :
  list_remove x l = Some l' -> Exists (fun y => oid y = oid x) l.
Proof.
  revert l'. induction l as [|y l IH]; simpl; intros l' H; [discriminate|].
  destruct (Nat.eqb_spec (oid y) (oid x)) as [Heq|Hne].
  - apply Exists_cons_hd. assumption.
  - destruct (list_remove x l) as [l0|]; simpl in H; [|discriminate].
    apply Exists_cons_tl. eapply IH. reflexivity.
Qed.

Lemma list_remove_present x l :
  Exists (fun y => oid y = oid x) l -> exists l', list_remove x l = Some l'.
Proof.
  intros Hex. destruct (list_remove x l) as [l'|] eqn:E; [eauto|].
  apply list_remove_None in E. apply Exists_exists in Hex as (y & Hy & Heq).
  rewrite Forall_forall in E. exfalso. apply (E y); assumption.
Qed.

(** *** [destroy], case by case *)

Lemma destroy_eq instance s :
  let s1 := snd (stop instance s) in
  let dp := globalDockerPorts s in
  let after dp' := mkSys (world s1) (trace s1) (next_oid s1) dp' in
  destroy instance s =
    match instancesByPort dp !! middleport instance with
    | None => (Raised KeyError, s1)
    | Some _ =>
        match instancesByName dp !! imagename instance with
        | None => (Raised KeyError, after (port_deleted instance dp))
        | Some l =>
            match list_remove instance l with
            | None => (Raised ValueError, after (port_deleted instance dp))
            | Some l' => (Returned tt, after (unregistered instance l' dp))
            end
        end
    end.
Proof.
  cbv zeta. unfold destroy, bind at 1.
  pose proof (keeps_ports_stop instance s) as Hp.
  destruct (stop_returns instance s) as [ok Hok].
  destruct (stop instance s) as [r s1]; simpl in *. subst r.
  unfold bind, get_ports, put_ports, raise. simpl. rewrite Hp.
  destruct (instancesByPort (globalDockerPorts s) !! middleport instance);
    [|reflexivity].
  simpl. destruct (instancesByName (globalDockerPorts s) !! imagename instance)
    as [l|]; [|reflexivity].
  destruct (list_remove instance l); reflexivity.
Qed.

Lemma held_unregistered instance l l' dp j :
  instancesByName dp !! imagename instance = Some l ->
  (forall y, y ∈ l' -> y ∈ l) ->
  held j (unregistered instance l' dp) -> held j dp.
Proof.
  intros Hl Hsub [(img & k & Hk & Hj)|(p & Hp)]; simpl in *.
  - left. destruct (decide (imagename instance = img)) as [<-|Hne].
    + rewrite lookup_insert_eq in Hk. injection Hk as <-.
      exists (imagename instance), l. split; [assumption|]. apply Hsub. assumption.
    + rewrite lookup_insert_ne in Hk by assumption. exists img, k. auto.
  - right. exists p. apply lookup_delete_Some in Hp as [_ Hp]. assumption.
Qed.

Lemma held_port_deleted instance dp j :
  held j (port_deleted instance dp) -> held j dp.
Proof.
  intros [(img & k & Hk & Hj)|(p & Hp)]; simpl in *.
  - left. exists img, k. auto.
  - right. exists p. apply lookup_delete_Some in Hp as [_ Hp]. assumption.
Qed.

(** *** The registry stays well formed *)

Lemma registry_wf_shrink (s s' : Sys (World := World)) :
  registry_wf s ->
  (next_oid s <= next_oid s')%nat ->
  (forall img l', instancesByName (globalDockerPorts s') !! img = Some l' ->
     exists l, instancesByName (globalDockerPorts s) !! img = Some l /\
               (forall y, y ∈ l' -> y ∈ l) /\ (NoDup l -> NoDup l')) ->
  (forall p i, instancesByPort (globalDockerPorts s') !! p = Some i ->
     instancesByPort (globalDockerPorts s) !! p = Some i) ->
  registry_wf s'.
Proof.
  intros [W1 W2 W3 W4 W5] Hoid Hname Hport.
  assert (Hheld : forall j, held j (globalDockerPorts s') ->
                            held j (globalDockerPorts s)).
  { intros j [(img & l' & Hl' & Hj)|(p & Hp)].
    - destruct (Hname _ _ Hl') as (l & Hl & Hsub & _).
      left. exists img, l. auto.
    - right. exists p. auto. }
  split.
  - intros i Hi. specialize (W1 i (Hheld i Hi)). lia.
  - intros i k Hi Hk. apply W2; auto.
  - intros img l' i Hl' Hi. destruct (Hname _ _ Hl') as (l & Hl & Hsub & _).
    eapply W3; eauto.
  - intros p i Hp. apply W4. auto.
  - intros img l' Hl'. destruct (Hname _ _ Hl') as (l & Hl & _ & Hnd).
    apply Hnd. eapply W5. eassumption.
Qed.

Lemma registry_wf_destroy instance s :
  registry_wf s -> registry_wf (snd (destroy instance s)).
Proof.
  intros Hwf. rewrite destroy_eq. cbv zeta.
  pose proof (keeps_ports_stop instance s) as Hp.
  pose proof (keeps_oid_stop instance s) as Ho.
  assert (Hdel : forall p i,
    delete (middleport instance) (instancesByPort (globalDockerPorts s)) !! p = Some i ->
    instancesByPort (globalDockerPorts s) !! p = Some i).
  { intros p i H. apply lookup_delete_Some in H as [_ H]. assumption. }
  destruct (instancesByPort (globalDockerPorts s) !! middleport instance) as [j|].
  - destruct (instancesByName (globalDockerPorts s) !! imagename instance)
      as [l|] eqn:Hl; [destruct (list_remove instance l) as [l'|] eqn:Hrm|].
    + destruct (list_remove_sub _ _ _ Hrm) as [Hsub Hnd].
      apply (registry_wf_shrink s); simpl; [assumption|lia| |exact Hdel].
      intros img k Hk. destruct (decide (imagename instance = img)) as [<-|Hne].
      * rewrite lookup_insert_eq in Hk. injection Hk as <-. exists l. auto.
      * rewrite lookup_insert_ne in Hk by assumption. exists k. auto.
    + apply (registry_wf_shrink s); simpl; [assumption|lia| |exact Hdel].
      intros img k Hk. exists k. auto.
    + apply (registry_wf_shrink s); simpl; [assumption|lia| |exact Hdel].
      intros img k Hk. exists k. auto.
  - change (registry_wf (snd (stop instance s))).
    apply (registry_wf_shrink s); [assumption|rewrite Ho; lia| |]; rewrite Hp.
    + intros img k Hk. exists k. auto.
    + auto.
Qed.

Lemma create_cases fuel outerport s :
  let s' := snd (create fuel outerport s) in
  (globalDockerPorts s' = globalDockerPorts s /\ (next_oid s <= next_oid s')%nat /\
   forall inst, fst (create fuel outerport s) <> Returned (Some inst))
  \/ exists cfg inst,
      imageParams (globalDockerPorts s) !! outerport = Some cfg /\
      fst (create fuel outerport s) = Returned (Some inst) /\
      oid inst = next_oid s /\
      imagename inst = cfg_imagename cfg /\
      dockerparams inst = cfg_params cfg /\
      globalDockerPorts s' = register (cfg_imagename cfg) inst (globalDockerPorts s) /\
      next_oid s' = S (next_oid s).
Proof.
  cbv zeta.
  destruct (imageParams (globalDockerPorts s) !! outerport) as [cfg|] eqn:Hcfg.
  - rewrite (create_lookup _ _ _ _ Hcfg).
    destruct (reached_limit _ _ _); [left; simpl; split; [|split]; auto; discriminate|].
    rewrite create_admitted_start.
    set (self := mkDockerInstance (next_oid s) (cfg_params cfg) (cfg_imagename cfg)
                                  None None).
    pose proof (start_ports fuel self (allocated s)) as Hp.
    pose proof (keeps_oid_start fuel self (allocated s)) as Ho.
    destruct (start fuel self (allocated s)) as [[[r self']| |] s1] eqn:Hs;
      simpl in *.
    + right. exists cfg, self'.
      destruct (start_same_object _ _ _ _ _ _ Hs) as (Hoid & Himg & Hpar).
      rewrite Hp, Ho. auto 10.
    + left. rewrite Hp, Ho. split; [|split]; auto; discriminate.
    + left. rewrite Hp, Ho. split; [|split]; auto; discriminate.
  - rewrite create_unregistered by assumption. left.
    split; [|split]; auto; discriminate.
Qed.

Lemma held_register img inst dp j :
  held j (register img inst dp) -> j = inst \/ held j dp.
Proof.
  intros [(img' & l & Hl & Hj)|(p & Hp)].
  - destruct (decide (img = img')) as [<-|Hne].
    + rewrite register_byName in Hl. injection Hl as <-.
      apply elem_of_app in Hj as [Hj|Hj].
      * right. left. destruct (instancesByName dp !! img) as [l|] eqn:E; simpl in Hj.
        -- exists img, l. auto.
        -- apply elem_of_nil in Hj. contradiction.
      * left. apply list_elem_of_singleton in Hj. assumption.
    + rewrite register_byName_other in Hl by assumption.
      right. left. exists img', l. auto.
  - rewrite register_byPort in Hp.
    destruct (decide (middleport inst = p)) as [<-|Hne].
    + rewrite lookup_insert_eq in Hp. injection Hp as <-. left. reflexivity.
    + rewrite lookup_insert_ne in Hp by assumption. right. right. exists p. assumption.
Qed.

Lemma registry_wf_create fuel outerport s :
  registry_wf s -> registry_wf (snd (create fuel outerport s)).
Proof.
  intros Hwf.
  destruct (create_cases fuel outerport s)
    as [(Hp & Ho & _)|(cfg & inst & _ & _ & Hoid & Himg & _ & Hp & Ho)].
  - apply (registry_wf_shrink s); [assumption|assumption| |]; rewrite Hp.
    + intros img k Hk. exists k. auto.
    + auto.
  - destruct Hwf as [W1 W2 W3 W4 W5].
    assert (Hfresh : forall j, held j (globalDockerPorts s) -> j <> inst).
    { intros j Hj ->. specialize (W1 _ Hj). lia. }
    split; rewrite Hp.
    + rewrite Ho. intros j Hj. apply held_register in Hj as [->|Hj].
      * lia.
      * specialize (W1 _ Hj). lia.
    + intros i k Hi Hk Heq.
      apply held_register in Hi as [->|Hi]; apply held_register in Hk as [->|Hk].
      * reflexivity.
      * specialize (W1 _ Hk). lia.
      * specialize (W1 _ Hi). lia.
      * apply W2; assumption.
    + intros img l i Hl Hi.
      destruct (decide (cfg_imagename cfg = img)) as [<-|Hne].
      * rewrite register_byName in Hl. injection Hl as <-.
        apply elem_of_app in Hi as [Hi|Hi].
        -- destruct (instancesByName (globalDockerPorts s) !! cfg_imagename cfg)
             as [l|] eqn:E; simpl in Hi.
           ++ eapply W3; eassumption.
           ++ apply elem_of_nil in Hi. contradiction.
        -- apply list_elem_of_singleton in Hi. subst i. assumption.
      * rewrite register_byName_other in Hl by assumption. eapply W3; eassumption.
    + intros p i Hpi. rewrite register_byPort in Hpi.
      destruct (decide (middleport inst = p)) as [<-|Hne].
      * rewrite lookup_insert_eq in Hpi. injection Hpi as <-. reflexivity.
      * rewrite lookup_insert_ne in Hpi by assumption. apply W4. assumption.
    + intros img l Hl.
      destruct (decide (cfg_imagename cfg = img)) as [<-|Hne].
      * rewrite register_byName in Hl. injection Hl as <-.
        apply NoDup_app. split; [|split].
        -- destruct (instancesByName (globalDockerPorts s) !! cfg_imagename cfg)
             as [l|] eqn:E; simpl; [eapply W5; eassumption|apply NoDup_nil_2].
        -- intros j Hj Hin. apply list_elem_of_singleton in Hin. subst j.
           destruct (instancesByName (globalDockerPorts s) !! cfg_imagename cfg)
             as [l|] eqn:E; simpl in Hj.
           ++ apply (Hfresh inst); [|reflexivity]. left. eauto.
           ++ apply elem_of_nil in Hj. contradiction.
        -- apply NoDup_singleton.
      * rewrite register_byName_other in Hl by assumption. eapply W5; eassumption.
Qed.

(** X1.  The registry stays well formed through every history of
    [create] and [destroy] calls (and of moves of the outside world):
    the objects it holds have been allocated, no two distinct held
    objects share an identity, every instance in the list of an image
    has the name of that image, every entry of [instancesByPort] maps a
    port to an instance whose [middleport] is that port, and no list
    holds an instance twice.  The theorem does not say that every held
    instance has an entry under its port or is in the list of its
    image. *)
Theorem reachable_registry_wf s0 s :
  registry_wf s0 -> reachable s0 s -> registry_wf s.
Proof.
  intros Hwf Hreach.
  induction Hreach as [|s w _ IH|s fuel p _ IH _|s i _ IH].
  - assumption.
  - destruct IH as [W1 W2 W3 W4 W5]. split; assumption.
  - apply registry_wf_create. assumption.
  - apply registry_wf_destroy. assumption.
Qed.

Lemma destroy_registered_eq instance s j l l' :
  instancesByPort (globalDockerPorts s) !! middleport instance = Some j ->
  instancesByName (globalDockerPorts s) !! imagename instance = Some l ->
  list_remove instance l = Some l' ->
  destroy instance s =
    (Returned tt,
     mkSys (world (snd (stop instance s))) (trace (snd (stop instance s)))
           (next_oid (snd (stop instance s)))
           (unregistered instance l' (globalDockerPorts s))).
Proof.
  intros Hport Hname Hrm. rewrite destroy_eq. cbv zeta.
  rewrite Hport, Hname, Hrm. reflexivity.
Qed.

Lemma unregistered_live_count instance l l' dp :
  instancesByName dp !! imagename instance = Some l ->
  list_remove instance l = Some l' ->
  S (live_count (imagename instance) (unregistered instance l' dp)) =
    live_count (imagename instance) dp.
Proof.
  intros Hname Hrm. unfold live_count; simpl. rewrite lookup_insert_eq, Hname.
  apply list_remove_length in Hrm. lia.
Qed.

Lemma list_remove_keeps a b l l' :
  oid a <> oid b -> list_remove a l = Some l' -> b ∈ l -> b ∈ l'.
Proof.
  intros Hab. revert l'.
  induction l as [|y l IH]; simpl; intros l' Hrm Hb; [discriminate|].
  destruct (Nat.eqb_spec (oid y) (oid a)) as [Hy|Hy].
  - injection Hrm as <-. apply elem_of_cons in Hb as [->|Hb]; [congruence|assumption].
  - destruct (list_remove a l) as [l0|]; simpl in Hrm; [|discriminate].
    injection Hrm as <-. apply elem_of_cons in Hb as [->|Hb].
    + apply elem_of_cons. left. reflexivity.
    + apply elem_of_cons. right. apply IH; [reflexivity|assumption].
Qed.

(** *** Releasing an instance *)

(** X2.  [destroy] of an instance that is registered (its port is a key
    of [instancesByPort] and the instance is in the list of its image)
    returns normally and unregisters it from both mappings, whatever the
    two runtime commands of [stop] report: the port key is gone, the
    first occurrence of the instance is dropped from its image list, so
    that the count of the image falls by exactly one, and nothing else
    changes in the registry. *)
Theorem destroy_unregisters instance s j l :
  instancesByPort (globalDockerPorts s) !! middleport instance = Some j ->
  instancesByName (globalDockerPorts s) !! imagename instance = Some l ->
  Exists (fun y => oid y = oid instance) l ->
  let dp := globalDockerPorts s in
  let dp' := globalDockerPorts (snd (destroy instance s)) in
  exists l',
    list_remove instance l = Some l' /\
    fst (destroy instance s) = Returned tt /\
    dp' = unregistered instance l' dp /\
    instancesByPort dp' !! middleport instance = None /\
    instancesByName dp' !! imagename instance = Some l' /\
    S (live_count (imagename instance) dp') = live_count (imagename instance) dp /\
    (forall img, img <> imagename instance ->
       instancesByName dp' !! img = instancesByName dp !! img) /\
    (forall p, p <> middleport instance ->
       instancesByPort dp' !! p = instancesByPort dp !! p) /\
    imageParams dp' = imageParams dp.
Proof.
  intros Hport Hname Hex dp dp'. subst dp dp'.
  destruct (list_remove_present _ _ Hex) as [l' Hrm].
  exists l'. rewrite destroy_eq. cbv zeta. rewrite Hport, Hname, Hrm. simpl.
  split; [reflexivity|]. split; [reflexivity|]. split; [reflexivity|].
  split; [apply lookup_delete_eq|]. split; [apply lookup_insert_eq|].
  split; [|split; [|split]].
  - unfold live_count; simpl. rewrite lookup_insert_eq, Hname.
    apply list_remove_length in Hrm. lia.
  - intros img Hne. apply lookup_insert_ne. congruence.
  - intros p Hne. apply lookup_delete_ne. congruence.
  - reflexivity.
Qed.

(** X3.  [destroy] returns normally exactly when the instance's port is a
    key of [instancesByPort] and the instance is in the list of its
    image.  It raises [ValueError] exactly when the port and the image
    are keys but the instance is not in the list, and [KeyError]
    otherwise.  When it raises, the runtime has been asked to kill the
    container all the same, the image lists are as before, and the port
    key has been deleted (another instance's entry, if the port was
    shared). *)
Theorem destroy_outcome instance s :
  let dp := globalDockerPorts s in
  let r := fst (destroy instance s) in
  let dp' := globalDockerPorts (snd (destroy instance s)) in
  let listed :=
    exists l, instancesByName dp !! imagename instance = Some l /\
              Exists (fun y => oid y = oid instance) l in
  let unlisted :=
    exists l, instancesByName dp !! imagename instance = Some l /\
              Forall (fun y => oid y <> oid instance) l in
  (r = Returned tt <-> is_Some (instancesByPort dp !! middleport instance) /\ listed) /\
  (r = Raised ValueError <->
     is_Some (instancesByPort dp !! middleport instance) /\ unlisted) /\
  (r <> Returned tt ->
     (r = Raised KeyError \/ r = Raised ValueError) /\
     instancesByName dp' = instancesByName dp /\
     instancesByPort dp' = delete (middleport instance) (instancesByPort dp) /\
     imageParams dp' = imageParams dp) /\
  attempted (DockerKill (instanceid instance)) s (snd (destroy instance s)).
Proof.
  cbv zeta.
  assert (Hkill : attempted (DockerKill (instanceid instance)) s
                            (snd (destroy instance s))).
  { destruct (stop_attempts_kill instance s) as (es & rc & out & Htr & Hin).
    exists es, rc, out. split; [|assumption]. rewrite <- Htr.
    rewrite destroy_eq. cbv zeta. repeat case_match; reflexivity. }
  revert Hkill.
  generalize (attempted (DockerKill (instanceid instance)) s
                        (snd (destroy instance s))).
  intros K HK.
  pose proof (keeps_ports_stop instance s) as Hp.
  rewrite destroy_eq. cbv zeta.
  destruct (instancesByPort (globalDockerPorts s) !! middleport instance)
    as [j|] eqn:Hport.
  - destruct (instancesByName (globalDockerPorts s) !! imagename instance)
      as [l|] eqn:Hname; [destruct (list_remove instance l) as [l'|] eqn:Hrm|];
      simpl.
    + assert (Hex : Exists (fun y => oid y = oid instance) l)
        by (eapply list_remove_found; eassumption).
      repeat split; eauto; try discriminate; try contradiction.
      intros [_ (l0 & [= <-] & HF)]. apply list_remove_None in HF. congruence.
    + apply list_remove_None in Hrm.
      repeat split; eauto; try discriminate.
      intros [_ (l0 & [= <-] & Hex)]. apply Exists_exists in Hex as (y & Hy & Heq).
      rewrite Forall_forall in Hrm. exfalso. apply (Hrm y); assumption.
    + repeat split; eauto; try discriminate.
      * intros [_ (l0 & Hl0 & _)]. discriminate.
      * intros [_ (l0 & Hl0 & _)]. discriminate.
  - simpl. rewrite Hp. repeat split; eauto; try discriminate.
    + intros [[j Hj] _]. discriminate.
    + intros [[j Hj] _]. discriminate.
    + symmetry. apply delete_id. assumption.
Qed.

(** *** Acquiring and releasing, composed *)

Lemma admitted_reached_limit dp img lim :
  lim <= 0 \/ Z.of_nat (live_count img dp) < lim ->
  reached_limit dp img lim = None.
Proof.
  intros [H|H]; [apply reached_limit_nonpos|apply reached_limit_below]; assumption.
Qed.

Lemma wf_fresh (s : Sys (World := World)) l img :
  registry_wf s ->
  instancesByName (globalDockerPorts s) !! img = Some l ->
  Forall (fun y => oid y <> next_oid s) l.
Proof.
  intros Hwf Hl. apply Forall_forall. intros y Hy Heq.
  assert (Hheld : held y (globalDockerPorts s)) by (left; eauto).
  pose proof (wf_allocated s Hwf y Hheld). lia.
Qed.

Lemma destroy_after_register inst img dp (s1 : Sys (World := World)) :
  imagename inst = img ->
  globalDockerPorts s1 = register img inst dp ->
  Forall (fun y => oid y <> oid inst) (default [] (instancesByName dp !! img)) ->
  let dp2 := globalDockerPorts (snd (destroy inst s1)) in
  fst (destroy inst s1) = Returned tt /\
  (forall img', live_count img' dp2 = live_count img' dp) /\
  instancesByName dp2 !! img = Some (default [] (instancesByName dp !! img)) /\
  (forall img', img' <> img ->
     instancesByName dp2 !! img' = instancesByName dp !! img') /\
  (instancesByPort dp !! middleport inst = None ->
     instancesByPort dp2 = instancesByPort dp) /\
  imageParams dp2 = imageParams dp.
Proof.
  intros Himg Hp1 Hold. cbv zeta.
  set (old := default [] (instancesByName dp !! img)) in *.
  assert (Hname : instancesByName (globalDockerPorts s1) !! imagename inst =
                  Some (old ++ [inst])).
  { rewrite Hp1, Himg. apply register_byName. }
  rewrite (destroy_registered_eq inst s1 inst (old ++ [inst]) old);
    [|rewrite Hp1; apply lookup_insert_eq|assumption|apply list_remove_last; assumption].
  cbn [fst snd globalDockerPorts]. unfold unregistered. rewrite Hp1, Himg.
  cbn [instancesByName instancesByPort imageParams].
  assert (Hbn : forall img', img' <> img ->
            <[img := old]> (instancesByName (register img inst dp)) !! img' =
              instancesByName dp !! img').
  { intros img' Hne. rewrite lookup_insert_ne by congruence.
    apply register_byName_other. congruence. }
  split; [reflexivity|]. split; [|split; [|split; [|split]]].
  - intros img'. unfold live_count. cbn [instancesByName].
    destruct (decide (img' = img)) as [->|Hne].
    + rewrite lookup_insert_eq. subst old.
      destruct (instancesByName dp !! img); reflexivity.
    + rewrite (Hbn img' Hne). reflexivity.
  - apply lookup_insert_eq.
  - assumption.
  - intros Hfree. rewrite register_byPort, delete_insert_eq. apply delete_id.
    assumption.
  - reflexivity.
Qed.

Lemma create_registers_fresh fuel outerport s inst :
  registry_wf s ->
  fst (create fuel outerport s) = Returned (Some inst) ->
  exists cfg,
    imageParams (globalDockerPorts s) !! outerport = Some cfg /\
    imagename inst = cfg_imagename cfg /\
    globalDockerPorts (snd (create fuel outerport s)) =
      register (cfg_imagename cfg) inst (globalDockerPorts s) /\
    Forall (fun y => oid y <> oid inst)
           (default [] (instancesByName (globalDockerPorts s) !! cfg_imagename cfg)).
Proof.
  intros Hwf Hret.
  destruct (create_cases fuel outerport s)
    as [(_ & _ & Hno)|(cfg & inst' & Hcfg & Hfst & Hoid & Himg & _ & Hp & _)].
  { exfalso. apply (Hno inst). assumption. }
  assert (inst' = inst) by congruence. subst inst'.
  exists cfg. split; [assumption|]. split; [assumption|]. split; [assumption|].
  rewrite Hoid.
  destruct (instancesByName (globalDockerPorts s) !! cfg_imagename cfg)
    as [l|] eqn:E; simpl; [eapply wf_fresh; eassumption|constructor].
Qed.

(** X4.  Round trip.  From a well-formed registry, when [create]
    returns an instance, the [destroy] of that instance (whatever the
    world did in between, and whether or not the instance ever became
    ready) returns normally and gives back the image lists: every image
    has the list and the count it had, except that the image of the
    port, if it had no entry before, now has the empty list.  The port
    mapping is the same too when the instance's port was not a key
    before. *)
Theorem create_destroy_round_trip fuel outerport s inst w :
  registry_wf s ->
  fst (create fuel outerport s) = Returned (Some inst) ->
  let dp := globalDockerPorts s in
  let s2 := snd (destroy inst (with_world w (snd (create fuel outerport s)))) in
  let dp2 := globalDockerPorts s2 in
  exists cfg,
    imageParams dp !! outerport = Some cfg /\
    imagename inst = cfg_imagename cfg /\
    fst (destroy inst (with_world w (snd (create fuel outerport s)))) = Returned tt /\
    (forall img, live_count img dp2 = live_count img dp) /\
    instancesByName dp2 !! cfg_imagename cfg =
      Some (default [] (instancesByName dp !! cfg_imagename cfg)) /\
    (forall img, img <> cfg_imagename cfg ->
       instancesByName dp2 !! img = instancesByName dp !! img) /\
    (instancesByPort dp !! middleport inst = None ->
       instancesByPort dp2 = instancesByPort dp) /\
    imageParams dp2 = imageParams dp.
Proof.
  intros Hwf Hret dp s2 dp2. subst dp s2 dp2.
  destruct (create_registers_fresh fuel outerport s inst Hwf Hret)
    as (cfg & Hcfg & Himg & Hp & Hold).
  exists cfg. split; [assumption|]. split; [assumption|].
  apply (destroy_after_register inst (cfg_imagename cfg) (globalDockerPorts s)
           (with_world w (snd (create fuel outerport s)))); assumption.
Qed.

(** X5.  A slot is given back.  On a port whose image has a limit [> 0]
    that the list of the image has reached, [create] denies; once one
    registered instance of that image has been destroyed, [create] on
    the same port passes the admission check. *)
Theorem destroy_frees_slot fuel outerport s cfg instance j l :
  imageParams (globalDockerPorts s) !! outerport = Some cfg ->
  cfg_imagename cfg = imagename instance ->
  0 < cfg_limit cfg ->
  instancesByPort (globalDockerPorts s) !! middleport instance = Some j ->
  instancesByName (globalDockerPorts s) !! imagename instance = Some l ->
  Exists (fun y => oid y = oid instance) l ->
  Z.of_nat (length l) = cfg_limit cfg ->
  let s' := snd (destroy instance s) in
  fst (create fuel outerport s) = Returned None /\
  create fuel outerport s' =
    create_admitted fuel (cfg_imagename cfg) (cfg_params cfg) s' /\
  fst (create fuel outerport s') <> Returned None.
Proof.
  intros Hcfg Himg Hpos Hport Hname Hex Hfull s'. subst s'.
  destruct (list_remove_present _ _ Hex) as [l' Hrm].
  pose proof (unregistered_live_count instance l l' (globalDockerPorts s) Hname Hrm)
    as Hcount.
  assert (Hlive : live_count (imagename instance) (globalDockerPorts s) = length l)
    by (unfold live_count; rewrite Hname; reflexivity).
  split.
  - rewrite (create_lookup _ _ _ _ Hcfg), Himg.
    rewrite reached_limit_Some by lia. reflexivity.
  - rewrite (destroy_registered_eq instance s j l l' Hport Hname Hrm). simpl.
    match goal with
    | |- context [create fuel outerport ?st] => set (s' := st)
    end.
    assert (Hcfg' : imageParams (globalDockerPorts s') !! outerport = Some cfg)
      by exact Hcfg.
    rewrite (create_lookup _ _ _ _ Hcfg'), Himg.
    rewrite reached_limit_below by (unfold s'; simpl; lia).
    split; [reflexivity|apply create_admitted_not_denied].
Qed.

(** X6.  A shared port key leaves a stale entry.  When two instances have
    the same [middleport] (two failed starts both have [None]), the
    [destroy] of one deletes the key, and the [destroy] of the other
    then raises [KeyError] and leaves the image lists as they are: the
    second instance stays listed and goes on counting against the limit
    of its image. *)
Theorem destroy_shared_port_leaves_entry a b s ja la lb w :
  middleport a = middleport b ->
  oid a <> oid b ->
  instancesByPort (globalDockerPorts s) !! middleport a = Some ja ->
  instancesByName (globalDockerPorts s) !! imagename a = Some la ->
  Exists (fun y => oid y = oid a) la ->
  instancesByName (globalDockerPorts s) !! imagename b = Some lb ->
  b ∈ lb ->
  let s1 := with_world w (snd (destroy a s)) in
  let s2 := snd (destroy b s1) in
  fst (destroy a s) = Returned tt /\
  fst (destroy b s1) = Raised KeyError /\
  instancesByName (globalDockerPorts s2) = instancesByName (globalDockerPorts s1) /\
  exists lb', instancesByName (globalDockerPorts s2) !! imagename b = Some lb' /\
              b ∈ lb' /\ (0 < live_count (imagename b) (globalDockerPorts s2))%nat.
Proof.
  intros Hsame Hab Hport Hname Hex Hnameb Hb s1 s2. subst s1 s2.
  destruct (list_remove_present _ _ Hex) as [la' Hrm].
  rewrite (destroy_registered_eq a s ja la la' Hport Hname Hrm). simpl.
  match goal with
  | |- context [destroy b ?st] => set (s1 := st)
  end.
  assert (Hgone : instancesByPort (globalDockerPorts s1) !! middleport b = None).
  { unfold s1. simpl. rewrite <- Hsame. apply lookup_delete_eq. }
  pose proof (keeps_ports_stop b s1) as Hstop.
  rewrite (destroy_eq b s1). cbv zeta. rewrite Hgone. simpl. rewrite Hstop.
  split; [reflexivity|]. split; [reflexivity|]. split; [reflexivity|].
  assert (Hstill : exists lb', instancesByName (globalDockerPorts s1) !! imagename b
                               = Some lb' /\ b ∈ lb').
  { unfold s1. simpl. destruct (decide (imagename a = imagename b)) as [Heq|Hne].
    - rewrite <- Heq, lookup_insert_eq. exists la'. split; [reflexivity|].
      rewrite <- Heq, Hname in Hnameb. injection Hnameb as <-.
      eapply list_remove_keeps; eassumption.
    - rewrite lookup_insert_ne by assumption. exists lb. auto. }
  destruct Hstill as (lb' & Hlb' & Hin). exists lb'.
  split; [assumption|]. split; [assumption|].
  unfold live_count. rewrite Hlb'.
  destruct lb'; [apply elem_of_nil in Hin; contradiction|simpl; lia].
Qed.

(** The readiness polling gives no command to the runtime. *)
Lemma emits_isPortOpen_quiet self t :
  emits (fun e => ~ is_command e) (isPortOpen self t).
Proof. unfold isPortOpen. emits. Qed.

Lemma emits_waitLoop_quiet fuel self started timeout step :
  emits (fun e => ~ is_command e) (waitLoop fuel self started timeout step).
Proof.
  induction fuel as [|fuel IH]; simpl.
  - emits.
  - pose proof (emits_isPortOpen_quiet self readtimeout_default). emits.
Qed.

Lemma emits_waitForOpenPort_quiet fuel self timeout step :
  emits (fun e => ~ is_command e) (waitForOpenPort fuel self timeout step).
Proof.
  unfold waitForOpenPort.
  pose proof (fun st => emits_waitLoop_quiet fuel self st timeout step). emits.
Qed.

(** *** The failure paths of [start] *)

Lemma start_port_failed fuel self s cmd out1 w1 rc out2 w2 :
  format0 (run_text (dockerparams self)) = inr cmd ->
  getstatusoutput (DockerRun cmd) (world s) = ((0, out1), w1) ->
  getstatusoutput (DockerPort (strip out1)) w1 = ((rc, out2), w2) ->
  rc <> 0 ->
  start fuel self s =
    (Returned (None, set_instanceid self (strip out1)),
     mkSys w2
           (EvPrint (MsgRcOut rc out2) :: EvPrint (MsgFailedPortInfo (strip out1))
              :: EvCmd (DockerPort (strip out1)) rc out2
              :: EvCmd (DockerRun cmd) 0 out1 :: trace s)
           (next_oid s) (globalDockerPorts s)).
Proof.
  intros Hfmt Hrun Hport Hrc.
  unfold start. rewrite Hfmt. unfold bind at 1, run_command at 1. rewrite Hrun. simpl.
  unfold bind at 1, run_command at 1. simpl. rewrite Hport. simpl.
  destruct (Z.eqb_spec rc 0); [contradiction|]. reflexivity.
Qed.

Lemma start_parse_failed fuel self s cmd out1 w1 out2 w2 :
  format0 (run_text (dockerparams self)) = inr cmd ->
  getstatusoutput (DockerRun cmd) (world s) = ((0, out1), w1) ->
  getstatusoutput (DockerPort (strip out1)) w1 = ((0, out2), w2) ->
  parse_port out2 = None ->
  let self' := set_instanceid self (strip out1) in
  start fuel self s =
    (Returned (None, self'),
     snd (stop self'
            (mkSys w2
                   (EvPrint (MsgFailedParse (strip out1) out2)
                      :: EvCmd (DockerPort (strip out1)) 0 out2
                      :: EvCmd (DockerRun cmd) 0 out1 :: trace s)
                   (next_oid s) (globalDockerPorts s)))).
Proof.
  intros Hfmt Hrun Hport Hparse self'.
  unfold start. rewrite Hfmt. unfold bind at 1, run_command at 1. rewrite Hrun. simpl.
  unfold bind at 1, run_command at 1. simpl. rewrite Hport. simpl.
  rewrite Hparse. unfold bind at 1, print at 1, emit. simpl. fold self'.
  unfold bind.
  match goal with
  | |- context [stop self' ?s0] =>
      destruct (stop_returns self' s0) as [ok Hok];
      destruct (stop self' s0) as [r4 s4]; simpl in Hok; subst r4
  end.
  reflexivity.
Qed.

Lemma attempted_trans c (s1 s2 s3 : Sys (World := World)) es :
  trace s2 = es ++ trace s1 -> attempted c s2 s3 -> attempted c s1 s3.
Proof.
  intros Htr (es' & rc & out & Htr' & Hin).
  exists (es' ++ es), rc, out. split.
  - rewrite Htr', Htr. apply app_assoc.
  - apply in_or_app. left. assumption.
Qed.

Lemma not_attempted (c : Command) (s s' : Sys (World := World)) es :
  trace s' = es ++ trace s ->
  (forall rc out, ~ In (EvCmd c rc out) es) ->
  ~ attempted c s s'.
Proof.
  intros Htr Hno (es' & rc & out & Htr' & Hin).
  rewrite Htr in Htr'. apply app_inv_tail in Htr'. subst es'.
  apply (Hno rc out). assumption.
Qed.

(** X7.  What a failed [start] leaves behind.  A [start] that returns
    [None] has formed its launch command.  When [docker run] fails,
    [start] asks nothing more of the runtime and leaves the object as it
    was.  When [docker run] succeeds and [docker port] fails, [start]
    returns [None] without asking the runtime to kill or remove the
    container it has just launched.  When both succeed (and then the
    port cannot be parsed or the polling times out), a [start] that
    returns [None] has asked the runtime to kill that container. *)
Theorem start_failure_cleanup fuel self s self' s' :
  start fuel self s = (Returned (None, self'), s') ->
  exists cmd,
  format0 (run_text (dockerparams self)) = inr cmd /\
  let run := getstatusoutput (DockerRun cmd) (world s) in
  let id := strip (snd (fst run)) in
  let port := getstatusoutput (DockerPort id) (snd run) in
  (fst (fst run) <> 0 ->
     self' = self /\
     forall c, c <> DockerRun cmd -> ~ attempted c s s') /\
  (fst (fst run) = 0 -> fst (fst port) <> 0 ->
     self' = set_instanceid self id /\
     ~ attempted (DockerKill (Some id)) s s' /\
     ~ attempted (DockerRm (Some id)) s s') /\
  (fst (fst run) = 0 -> fst (fst port) = 0 ->
     instanceid self' = Some id /\
     attempted (DockerKill (Some id)) s s').
Proof.
  intros Hstart.
  destruct (format0 (run_text (dockerparams self))) as [e|cmd] eqn:Hfmt.
  { rewrite (start_unformattable _ _ _ e Hfmt) in Hstart. discriminate. }
  exists cmd. split; [reflexivity|]. intros run id port. subst id port run.
  destruct (getstatusoutput (DockerRun cmd) (world s))
    as [[rc1 out1] w1] eqn:Hrun. simpl.
  destruct (getstatusoutput (DockerPort (strip out1)) w1)
    as [[rc2 out2] w2] eqn:Hport. simpl.
  split; [|split].
  - intros Hrc. rewrite (start_launch_failed _ _ _ _ _ _ _ Hfmt Hrun Hrc) in Hstart.
    injection Hstart as <- <-. split; [reflexivity|].
    intros c Hc. eapply (not_attempted c s _ [_; _; _]); [reflexivity|].
    intros rc out [H|[H|[H|[]]]]; congruence.
  - intros -> Hrc.
    rewrite (start_port_failed _ _ _ _ _ _ _ _ _ Hfmt Hrun Hport Hrc) in Hstart.
    injection Hstart as <- <-. split; [reflexivity|]. split.
    + eapply (not_attempted _ s _ [_; _; _; _]); [reflexivity|].
      intros rc out [H|[H|[H|[H|[]]]]]; congruence.
    + eapply (not_attempted _ s _ [_; _; _; _]); [reflexivity|].
      intros rc out [H|[H|[H|[H|[]]]]]; congruence.
  - intros -> ->. destruct (parse_port out2) as [p|] eqn:Hparse.
    + rewrite (start_launched _ _ _ _ _ _ _ _ _ Hfmt Hrun Hport Hparse) in Hstart.
      cbv zeta in Hstart.
      set (self2 := set_middleport (set_instanceid self (strip out1)) p) in *.
      set (s2 := launched cmd (strip out1) p out1 out2 w2 s) in *.
      destruct (emits_weaken (fun e => ~ is_transport e) (fun _ => True)
                  (waitForOpenPort fuel self2 timeout_default step_default)
                  (fun _ _ => I)) with (s := s2) as (es & Htr & _).
      { unfold waitForOpenPort.
        pose proof (fun st => emits_waitLoop fuel self2 st timeout_default step_default).
        emits. }
      destruct (waitForOpenPort fuel self2 timeout_default step_default s2)
        as [[[|]| |] s3]; try discriminate.
      injection Hstart as <- <-. split; [reflexivity|].
      simpl in Htr.
      eapply (attempted_trans _ s s3 _ (es ++ [_; _; _])).
      * rewrite Htr. unfold s2, launched. simpl. rewrite <- app_assoc. reflexivity.
      * apply (stop_attempts_kill self2 s3).
    + rewrite (start_parse_failed _ _ _ _ _ _ _ _ Hfmt Hrun Hport Hparse) in Hstart.
      injection Hstart as <- <-. split; [reflexivity|].
      eapply (attempted_trans _ s _ _ [_; _; _]); [|apply stop_attempts_kill].
      reflexivity.
Qed.

(** X8.  [start] reports success only after a byte was read.  When
    [start] returns an identifier, the object has that identifier and a
    port, the last thing [start] did was a probe of that port whose read
    gave at least one byte, and the runtime was never asked to kill the
    container. *)
Theorem start_success_saw_byte fuel self s id self' s' :
  start fuel self s = (Returned (Some id, self'), s') ->
  instanceid self' = Some id /\
  exists port data rest,
    middleport self' = Some port /\
    (0 < length data)%nat /\
    trace s' =
      EvClose :: EvRecv 1 (Some data) :: EvSetTimeout readtimeout_default
        :: EvConnect port true :: rest /\
    ~ attempted (DockerKill (Some id)) s s'.
Proof.
  intros Hstart.
  destruct (format0 (run_text (dockerparams self))) as [e|cmd] eqn:Hfmt.
  { rewrite (start_unformattable _ _ _ e Hfmt) in Hstart. discriminate. }
  destruct (getstatusoutput (DockerRun cmd) (world s))
    as [[rc1 out1] w1] eqn:Hrun.
  destruct (Z.eq_dec rc1 0) as [->|Hrc1].
  2:{ rewrite (start_launch_failed _ _ _ _ _ _ _ Hfmt Hrun Hrc1) in Hstart.
      discriminate. }
  destruct (getstatusoutput (DockerPort (strip out1)) w1)
    as [[rc2 out2] w2] eqn:Hport.
  destruct (Z.eq_dec rc2 0) as [->|Hrc2].
  2:{ rewrite (start_port_failed _ _ _ _ _ _ _ _ _ Hfmt Hrun Hport Hrc2) in Hstart.
      discriminate. }
  destruct (parse_port out2) as [p|] eqn:Hparse.
  2:{ rewrite (start_parse_failed _ _ _ _ _ _ _ _ Hfmt Hrun Hport Hparse) in Hstart.
      discriminate. }
  rewrite (start_launched _ _ _ _ _ _ _ _ _ Hfmt Hrun Hport Hparse) in Hstart.
  cbv zeta in Hstart.
  set (self2 := set_middleport (set_instanceid self (strip out1)) p) in *.
  set (s2 := launched cmd (strip out1) p out1 out2 w2 s) in *.
  destruct (waitForOpenPort fuel self2 timeout_default step_default s2)
    as [[[|]| |] s3] eqn:Hwait; try discriminate.
  injection Hstart as <- <- <-. split; [reflexivity|].
  destruct (waitForOpenPort_events fuel self2 p _ _ s2 true s3 eq_refl Hwait)
    as (started & es & Htr & Hev).
  apply poll_events_ready in Hev as (t & probe & before & -> & _ & Hprobe).
  inversion Hprobe as [| |data Hdata Hes]; subst.
  exists p, data, (EvTime t :: rev before ++ EvTime started :: trace s2).
  split; [reflexivity|]. split; [apply Nat.ltb_lt; auto|]. split.
  - rewrite Htr. rewrite rev_app_distr. simpl. reflexivity.
  - destruct (emits_waitForOpenPort_quiet fuel self2 timeout_default step_default s2)
      as (es' & Htr' & Hes').
    rewrite Hwait in Htr'. simpl in Htr'.
    eapply (not_attempted _ s s3 (es' ++ [_; _; _])).
    + rewrite Htr'. unfold s2, launched. simpl. rewrite <- app_assoc. reflexivity.
    + intros rc out Hin. apply in_app_or in Hin as [Hin|[H|[H|[H|[]]]]];
        try discriminate.
      rewrite Forall_forall in Hes'.
      apply (Hes' (EvCmd (DockerKill (Some (strip out1))) rc out)); [|exact I].
      apply list_elem_of_In. assumption.
Qed.

(** *** How long the polling goes on *)

Lemma probes_app es es' : probes (es ++ es') = (probes es + probes es')%nat.
Proof.
  induction es as [|e es IH]; simpl; [reflexivity|].
  destruct e; simpl; rewrite IH; reflexivity.
Qed.

Lemma probe_events_probes port t r es :
  probe_events port t r es -> probes (rev es) = 1%nat.
Proof. intros H. destruct H; reflexivity. Qed.

Lemma waitLoop_probes clock self port started timeout step n :
  ClockLaws clock ->
  middleport self = Some port ->
  forall fuel s,
    (n < fuel)%nat ->
    (started + timeout - clock (world s) < budget step n)%Q ->
    exists r s' es,
      waitLoop fuel self started timeout step s = (Returned r, s') /\
      trace s' = es ++ trace s /\
      (probes es <= n)%nat.
Proof.
  intros L Hp.
  induction n as [|n IH]; intros fuel s Hfuel Hbud;
    (destruct fuel as [|fuel]; [lia|]); simpl in *.
  - unfold bind at 1, time.
    pose proof (time_reading _ L (world s)) as [Ht _].
    destruct (clock_time (world s)) as [t w1]; simpl in *.
    destruct (Qle_bool t (started + timeout)%Q) eqn:Hle.
    + apply Qle_bool_iff in Hle. lra.
    + eexists _, _, [EvTime t]. split; [reflexivity|]. split; [reflexivity|].
      simpl. lia.
  - unfold bind at 1, time.
    pose proof (time_reading _ L (world s)) as [Ht Ht'].
    destruct (clock_time (world s)) as [t w1] eqn:Et; simpl in *.
    destruct (Qle_bool t (started + timeout)%Q) eqn:Hle.
    + unfold bind at 1.
      pose proof (isPortOpen_clock clock self port readtimeout_default
                    (mkSys w1 (EvTime t :: trace s) (next_oid s) (globalDockerPorts s))
                    L Hp) as Hclk.
      destruct (isPortOpen_events self port readtimeout_default
                  (mkSys w1 (EvTime t :: trace s) (next_oid s) (globalDockerPorts s)) Hp)
        as (ro & s1 & es & Heq & Htr & Hev & _).
      rewrite Heq in *. simpl in Hclk, Htr.
      apply probe_events_probes in Hev.
      destruct ro.
      * eexists _, _, (rev es ++ [EvTime t]). split; [reflexivity|].
        split; [rewrite Htr, <- app_assoc; reflexivity|].
        rewrite probes_app, Hev. simpl. lia.
      * unfold bind at 1, sleep.
        destruct (IH fuel
                    (mkSys (clock_sleep step (world s1)) (EvSleep step :: trace s1)
                           (next_oid s1) (globalDockerPorts s1)))
          as (r & s' & es' & Hloop & Htr' & Hcount).
        { lia. }
        { simpl. pose proof (sleep_lasts _ L step (world s1)). lra. }
        exists r, s', (es' ++ EvSleep step :: rev es ++ [EvTime t]).
        split; [assumption|]. split.
        -- rewrite Htr'. simpl. rewrite Htr.
           rewrite <- app_assoc. simpl. rewrite <- app_assoc. reflexivity.
        -- rewrite probes_app. simpl. rewrite probes_app, Hev. simpl. lia.
    + eexists _, _, [EvTime t]. split; [reflexivity|]. split; [reflexivity|].
      simpl. lia.
Qed.

(** X9.  With the default timeout of 5 seconds and step of 0.1 seconds,
    and a clock that [time.sleep] moves on, the readiness polling ends
    after at most 51 probes of the port. *)
Theorem polling_probes_bounded clock fuel self port s :
  ClockLaws clock ->
  middleport self = Some port ->
  (poll_bound <= fuel)%nat ->
  exists r s' es,
    waitForOpenPort fuel self timeout_default step_default s = (Returned r, s') /\
    trace s' = es ++ trace s /\
    (probes es <= 51)%nat.
Proof.
  intros L Hp Hfuel. unfold waitForOpenPort, bind at 1, time.
  pose proof (time_reading _ L (world s)) as [_ Ht].
  destruct (clock_time (world s)) as [t w1]; simpl in *.
  destruct (waitLoop_probes clock self port t timeout_default step_default 51 L Hp
              fuel (mkSys w1 (EvTime t :: trace s) (next_oid s) (globalDockerPorts s)))
    as (r & s' & es & Hloop & Htr & Hcount).
  - unfold poll_bound in Hfuel. lia.
  - simpl world. pose proof budget_default. lra.
  - exists r, s', (es ++ [EvTime t]). split; [assumption|]. split.
    + rewrite Htr. simpl. rewrite <- app_assoc. reflexivity.
    + rewrite probes_app. simpl. lia.
Qed.

(** *** The session *)

(** X10.  What a session does to its client.  [connectionMade] first
    pauses the client's transport.  After that it touches the transport
    or the reactor in one of three ways: when [create] denies, it writes
    the rejection line and closes the connection, and nothing else; when
    [create] returns an instance, it asks the reactor for a connection
    to host 0.0.0.0 on that instance's [middleport], writes nothing and
    does not close, and the instance is registered under that port; when
    [create] raises (an unregistered port), it does nothing at all, so
    the client stays paused and connected. *)
Theorem connectionMade_transport fuel outerport s :
  let r := fst (connectionMade fuel outerport s) in
  let s' := snd (connectionMade fuel outerport s) in
  exists es,
    trace s' = es ++ EvPauseProducing :: trace s /\
    (r = Returned None ->
     exists es', es = EvLoseConnection :: EvWrite rejection_line :: es' /\
                 Forall (fun e => ~ is_transport e) es') /\
    (forall i, r = Returned (Some i) ->
     exists es', es = EvConnectTCP "0.0.0.0" (middleport i) :: es' /\
                 Forall (fun e => ~ is_transport e) es' /\
                 instancesByPort (globalDockerPorts s') !! middleport i = Some i) /\
    ((forall v, r <> Returned v) -> Forall (fun e => ~ is_transport e) es).
Proof.
  cbv zeta. unfold connectionMade, bind, emit, ret. simpl.
  set (s0 := mkSys (world s) (EvPauseProducing :: trace s) (next_oid s)
                   (globalDockerPorts s)).
  destruct (emits_create fuel outerport s0) as (es & Htr & Hes).
  pose proof (create_cases fuel outerport s0) as Hcases.
  destruct (create fuel outerport s0) as [[[i|]| |] s1] eqn:Hc; simpl in *.
  - exists (EvConnectTCP "0.0.0.0" (middleport i) :: es).
    split; [rewrite Htr; reflexivity|]. split; [discriminate|]. split.
    + intros i' [= <-]. exists es. split; [reflexivity|]. split; [assumption|].
      destruct Hcases as [(_ & _ & Hno)|(cfg & inst & _ & [= <-] & _ & _ & _ & Hp & _)].
      * exfalso. apply (Hno i). reflexivity.
      * rewrite Hp. apply lookup_insert_eq.
    + intros Hno. exfalso. apply (Hno (Some i)). reflexivity.
  - exists (EvLoseConnection :: EvWrite rejection_line :: es).
    split; [rewrite Htr; reflexivity|]. split.
    + intros _. exists es. auto.
    + split; [discriminate|]. intros Hno. exfalso. apply (Hno None). reflexivity.
  - exists es. split; [assumption|]. split; [discriminate|].
    split; [discriminate|]. auto.
  - exists es. split; [assumption|]. split; [discriminate|].
    split; [discriminate|]. auto.
Qed.

Lemma connectionMade_served fuel outerport s i s1 :
  create fuel outerport
         (mkSys (world s) (EvPauseProducing :: trace s) (next_oid s)
                (globalDockerPorts s)) = (Returned (Some i), s1) ->
  connectionMade fuel outerport s =
    (Returned (Some i),
     mkSys (world s1) (EvConnectTCP "0.0.0.0" (middleport i) :: trace s1)
           (next_oid s1) (globalDockerPorts s1)).
Proof.
  intros Hc. unfold connectionMade, bind at 1, emit at 1. simpl.
  unfold bind at 1. rewrite Hc. reflexivity.
Qed.

(** X11.  A session gives back what it took.  From a well-formed
    registry, when [connectionMade] returns (the connection was denied,
    or it was served, whether or not the backend ever became ready), the
    loss of the connection (whatever the world did in between) returns
    normally, clears the session's instance and leaves every image with
    the count it had before the connection. *)
Theorem session_round_trip fuel outerport s field w :
  registry_wf s ->
  fst (connectionMade fuel outerport s) = Returned field ->
  let s1 := with_world w (snd (connectionMade fuel outerport s)) in
  fst (connectionLost field s1) = Returned None /\
  forall img,
    live_count img (globalDockerPorts (snd (connectionLost field s1))) =
      live_count img (globalDockerPorts s).
Proof.
  intros Hwf Hret.
  set (s0 := mkSys (world s) (EvPauseProducing :: trace s) (next_oid s)
                   (globalDockerPorts s)).
  assert (Hwf0 : registry_wf s0) by (destruct Hwf; split; assumption).
  pose proof (create_cases fuel outerport s0) as Hcases.
  pose proof (create_registers_fresh fuel outerport s0) as Hfresh.
  destruct (create fuel outerport s0) as [[[inst|]|e|] s1] eqn:Hc.
  - rewrite (connectionMade_served fuel outerport s inst s1 Hc) in *.
    simpl in Hret. injection Hret as <-.
    destruct (Hfresh inst Hwf0 eq_refl) as (cfg & _ & Himg & Hp & Hold).
    simpl in Hp. cbv zeta.
    match goal with
    | |- context [connectionLost (Some inst) ?st] => set (s2 := st)
    end.
    destruct (destroy_after_register inst (cfg_imagename cfg) (globalDockerPorts s) s2
                Himg Hp Hold) as (Hres & Hcount & _).
    unfold connectionLost, bind, emit, ret.
    destruct (destroy inst s2) as [rd s3]. simpl in Hres, Hcount. subst rd.
    simpl. split; [reflexivity|assumption].
  - rewrite (connectionMade_denied fuel outerport s s1 Hc) in *.
    simpl in Hret. injection Hret as <-.
    destruct Hcases as [(Hp & _)|(cfg & inst & _ & Hfst & _)]; [|discriminate].
    simpl in Hp. cbv zeta. simpl. split; [reflexivity|]. intros img. rewrite Hp.
    reflexivity.
  - exfalso. revert Hret. unfold connectionMade, bind at 1, emit at 1. simpl.
    unfold bind at 1. fold s0. rewrite Hc. discriminate.
  - exfalso. revert Hret. unfold connectionMade, bind at 1, emit at 1. simpl.
    unfold bind at 1. fold s0. rewrite Hc. discriminate.
Qed.

(** *** Exceptions *)

Lemma connectionMade_raised fuel outerport s e s1 :
  create fuel outerport
         (mkSys (world s) (EvPauseProducing :: trace s) (next_oid s)
                (globalDockerPorts s)) = (Raised e, s1) ->
  connectionMade fuel outerport s = (Raised e, s1).
Proof.
  intros Hc. unfold connectionMade, bind at 1, emit at 1. simpl.
  unfold bind at 1. rewrite Hc. reflexivity.
Qed.

(** X12.  Two ways in which [create] raises before anything is launched.
    On an outer port with no entry in [imageParams], [create] raises
    [KeyError] and changes nothing.  On a registered port, past the
    admission check, when the launch command cannot be formed (the
    second [str.format] of [start] fails on the braces of the image's
    [dockerparams]), [create] raises that exception: the instance object
    has been allocated, and nothing was asked of the runtime, printed or
    registered.  The connection handler then raises the same exception:
    the client's side has been paused, and the rejection line is not
    written and the connection is not closed. *)
Theorem create_error_paths fuel outerport s :
  (imageParams (globalDockerPorts s) !! outerport = None ->
     create fuel outerport s = (Raised KeyError, s)) /\
  (forall cfg e,
     imageParams (globalDockerPorts s) !! outerport = Some cfg ->
     reached_limit (globalDockerPorts s) (cfg_imagename cfg) (cfg_limit cfg) = None ->
     format0 (run_text (cfg_params cfg)) = inl e ->
     create fuel outerport s = (Raised e, allocated s) /\
     connectionMade fuel outerport s =
       (Raised e,
        mkSys (world s) (EvPauseProducing :: trace s) (S (next_oid s))
              (globalDockerPorts s))).
Proof.
  split.
  - intros Hcfg. apply create_unregistered. assumption.
  - intros cfg e Hcfg Hadm Hfmt. split.
    + rewrite (create_lookup _ _ _ _ Hcfg), Hadm.
      apply create_admitted_unformattable. assumption.
    + apply connectionMade_raised.
      set (s0 := mkSys (world s) (EvPauseProducing :: trace s) (next_oid s)
                       (globalDockerPorts s)).
      rewrite (create_lookup fuel outerport s0 cfg Hcfg). simpl. rewrite Hadm.
      rewrite (create_admitted_unformattable _ _ _ _ e Hfmt). reflexivity.
Qed.

(** X13.  A teardown that raises skips the rest of [connectionLost].
    [connectionLost] returns (and then has cleared the session's
    instance and called the base class) exactly when the session holds
    no instance or [destroy] of its instance returns.  When [destroy]
    raises, [connectionLost] raises the same exception, and the base
    class's [connectionLost] is not called: all it has done is the
    teardown of the container. *)
Theorem connectionLost_outcome field s :
  let r := fst (connectionLost field s) in
  let s' := snd (connectionLost field s) in
  (r = Returned None <->
   field = None \/ exists i, field = Some i /\ fst (destroy i s) = Returned tt) /\
  (r = Returned None -> hd_error (trace s') = Some EvSuperConnectionLost) /\
  (forall i e, field = Some i -> fst (destroy i s) = Raised e ->
     r = Raised e /\ s' = snd (destroy i s) /\
     exists es, trace s' = es ++ trace s /\
                Forall (is_teardown_of (instanceid i)) es).
Proof.
  cbv zeta. unfold connectionLost, bind, emit, ret. destruct field as [i|]; simpl.
  - destruct (emits_destroy i s) as (es & Htr & Hes).
    destruct (destroy i s) as [[[]|e|] s1] eqn:Hd; simpl in *.
    + split; [|split; [reflexivity|]].
      * split; [|reflexivity]. intros _. right. exists i. rewrite Hd. auto.
      * intros i' e [= <-]. rewrite Hd. discriminate.
    + split; [|split; [discriminate|]].
      * split; [discriminate|].
        intros [?|(i' & [= <-] & Hr)]; [discriminate|]. rewrite Hd in Hr. discriminate.
      * intros i' e' [= <-]. rewrite Hd. simpl. intros [= <-]. eauto.
    + split; [|split; [discriminate|]].
      * split; [discriminate|].
        intros [?|(i' & [= <-] & Hr)]; [discriminate|]. rewrite Hd in Hr. discriminate.
      * intros i' e' [= <-]. rewrite Hd. discriminate.
  - split; [split; auto|]. split; [reflexivity|]. intros i e H. discriminate.
Qed.

End Properties.

Section BootProperties.

Context {World : Type} {RT : Runtime World} {RX : Reactor World}.

(** ** The bootstrap, proved *)

Lemma boot_loop_cons name options rest dp (w : World) log :
  boot_loop ((name, options) :: rest) dp w log =
    match section_params options with
    | inl stop => mkBooted (Some stop) (Some dp) w log
    | inr (outerport, dockerparams, limit) =>
        let dp1 :=
          mkDockerPorts (instancesByPort dp) (instancesByName dp)
            (<[outerport := mkImageParams name dockerparams limit]> (imageParams dp)) in
        let log1 := BootListening outerport :: log in
        if fst (listenTCP outerport w)
        then boot_loop rest dp1 (snd (listenTCP outerport w))
                       (BootListenTCP outerport true :: log1)
        else mkBooted (Some CannotListenError) (Some dp1) (snd (listenTCP outerport w))
                      (BootListenTCP outerport false :: log1)
    end.
Proof.
  simpl. destruct (section_params options) as [stop|[[p params] limit]];
    [reflexivity|].
  destruct (listenTCP p w) as [[|] w1]; reflexivity.
Qed.

Lemma boot_loop_registries images :
  forall dp (w : World) log,
    exists dp',
      boot_ports (boot_loop images dp w log) = Some dp' /\
      instancesByPort dp' = instancesByPort dp /\
      instancesByName dp' = instancesByName dp /\
      forall code, boot_stop (boot_loop images dp w log) <> Some (SystemExit code).
Proof.
  induction images as [|[name options] rest IH]; intros dp w log.
  - exists dp. simpl. auto.
  - rewrite boot_loop_cons.
    destruct (section_params options) as [stop|[[p params] limit]] eqn:Hsec.
    + exists dp. simpl. repeat split; auto. intros code [= ->].
      unfold section_params in Hsec. repeat case_match; discriminate.
    + cbv zeta. destruct (fst (listenTCP p w)).
      * destruct (IH (mkDockerPorts (instancesByPort dp) (instancesByName dp)
                        (<[p := mkImageParams name params limit]> (imageParams dp)))
                     (snd (listenTCP p w))
                     (BootListenTCP p true :: BootListening p :: log))
          as (dp' & Hb & Hp & Hn & Hx).
        exists dp'. auto.
      * eexists. simpl. repeat split; auto; discriminate.
Qed.

Lemma boot_loop_serving images :
  forall dp (w : World) log dp',
    boot_stop (boot_loop images dp w log) = None ->
    boot_ports (boot_loop images dp w log) = Some dp' ->
    listeners (boot_log (boot_loop images dp w log)) =
      listeners log ++ omap section_port images /\
    Forall (fun c => is_Some (section_port c)) images /\
    (forall p, (forall c, c ∈ images -> section_port c <> Some p) ->
       imageParams dp' !! p = imageParams dp !! p) /\
    (forall p cfg, imageParams dp' !! p = Some cfg ->
       imageParams dp !! p = Some cfg \/
       exists name options,
         (name, options) ∈ images /\ name = cfg_imagename cfg /\
         section_params options = inr (p, cfg_params cfg, cfg_limit cfg)).
Proof.
  induction images as [|[name options] rest IH]; intros dp w log dp'.
  - simpl. intros _ [= <-]. rewrite app_nil_r. repeat split; auto.
  - rewrite boot_loop_cons. unfold section_port at 1 2. simpl.
    destruct (section_params options) as [stop|[[p params] limit]] eqn:Hsec;
      [discriminate|].
    cbv zeta. destruct (fst (listenTCP p w)); [|discriminate].
    intros Hstop Hports.
    destruct (IH _ _ _ _ Hstop Hports) as (Hl & Hall & Hkeep & Hfrom).
    split; [|split; [|split]].
    + rewrite Hl. simpl. rewrite <- app_assoc. reflexivity.
    + constructor; [|assumption]. unfold section_port. simpl. rewrite Hsec. eauto.
    + intros q Hq. rewrite Hkeep.
      * simpl. apply lookup_insert_ne. intros ->.
        apply (Hq (name, options)); [apply elem_of_cons; auto|].
        unfold section_port. simpl. rewrite Hsec. reflexivity.
      * intros c Hc. apply Hq. apply elem_of_cons. auto.
    + intros q cfg Hcfg. destruct (Hfrom q cfg Hcfg) as [Hin|(n & o & Hin & Hn & Ho)].
      * simpl in Hin. destruct (decide (p = q)) as [->|Hne].
        -- rewrite lookup_insert_eq in Hin. injection Hin as <-.
           right. exists name, options. simpl.
           split; [apply elem_of_cons; auto|]. auto.
        -- rewrite lookup_insert_ne in Hin by assumption. auto.
      * right. exists n, o. split; [apply elem_of_cons; auto|]. auto.
Qed.

Lemma boot_loop_registered images :
  forall dp (w : World) log dp' p,
    boot_stop (boot_loop images dp w log) = None ->
    boot_ports (boot_loop images dp w log) = Some dp' ->
    is_Some (imageParams dp !! p) \/ p ∈ omap section_port images ->
    is_Some (imageParams dp' !! p).
Proof.
  induction images as [|[name options] rest IH]; intros dp w log dp' p.
  - simpl. intros _ [= <-] [H|H]; [assumption|].
    apply elem_of_nil in H. contradiction.
  - rewrite boot_loop_cons. unfold section_port at 1. simpl.
    destruct (section_params options) as [stop|[[q params] limit]] eqn:Hsec;
      [discriminate|].
    cbv zeta. destruct (fst (listenTCP q w)); [|discriminate].
    intros Hstop Hports Hp. eapply IH; [eassumption|eassumption|]. simpl.
    destruct (decide (q = p)) as [->|Hne].
    + left. rewrite lookup_insert_eq. eauto.
    + rewrite lookup_insert_ne by assumption.
      destruct Hp as [Hp|Hp]; [auto|].
      apply elem_of_cons in Hp as [->|Hp]; [congruence|auto].
Qed.

Lemma main_listener_registered (config : Config) (w : World) dp p :
  boot_stop (main config w) = None ->
  boot_ports (main config w) = Some dp ->
  p ∈ listeners (boot_log (main config w)) ->
  is_Some (imageParams dp !! p).
Proof.
  unfold main.
  destruct (Nat.eqb (length (map fst config)) 0
            || (Nat.eqb (length (map fst config)) 1
                && bool_decide ("global"%string ∈ map fst config)));
    [discriminate|].
  intros Hstop Hports Hin.
  destruct (boot_loop_serving _ _ _ _ _ Hstop Hports) as (Hl & _).
  rewrite Hl in Hin. simpl in Hin.
  eapply boot_loop_registered; eauto.
Qed.


Lemma image_sections_nil (config : Config) :
  NoDup (map fst config) ->
  (image_sections config = [] <->
   config = [] \/ exists options, config = [("global"%string, options)]).
Proof.
  intros Hnd. unfold image_sections. split.
  - intros Hnil.
    assert (Hall : forall c, c ∈ config -> fst c = "global"%string).
    { intros c Hc. destruct (decide (fst c = "global"%string)) as [|Hne]; [assumption|].
      assert (Hin : c ∈ filter (fun c => fst c <> "global"%string) config)
        by (apply list_elem_of_filter; auto).
      rewrite Hnil in Hin. apply elem_of_nil in Hin. contradiction. }
    destruct config as [|[n1 o1] [|[n2 o2] rest]]; [auto| |].
    + right. exists o1.
      assert (H1 : n1 = "global"%string)
        by (apply (Hall (n1, o1)); apply elem_of_cons; auto).
      subst n1. reflexivity.
    + exfalso. simpl in Hnd.
      assert (H1 : n1 = "global"%string)
        by (apply (Hall (n1, o1)); apply elem_of_cons; auto).
      assert (H2 : n2 = "global"%string)
        by (apply (Hall (n2, o2)); apply elem_of_cons; right;
            apply elem_of_cons; auto).
      apply NoDup_cons in Hnd as [Hnot _]. apply Hnot.
      subst. apply elem_of_cons. auto.
  - intros [->|[options ->]]; reflexivity.
Qed.

(** X14.  The bootstrap refuses a configuration without images.  For a
    configuration whose section names are distinct, the script takes its
    [invalid configfile] branch, the only [sys.exit] call of the script,
    which is [sys.exit(1)], exactly when no section other than [global]
    exists; it then has printed the complaint only: no manager has been
    created and no port is listened on.  The script calls [sys.exit]
    with no other code.  (The other ways in which the process ends, an
    exception that nothing catches or the return of [reactor.run()], are
    other values of [boot_stop] or none, and are not spoken of here.) *)
Theorem main_invalid_config_iff_no_image (config : Config) (w : World) :
  NoDup (map fst config) ->
  (boot_stop (main config w) = Some (SystemExit 1) <-> image_sections config = []) /\
  (image_sections config = [] ->
     main config w = mkBooted (Some (SystemExit 1)) None w [BootInvalid]) /\
  (forall code, boot_stop (main config w) = Some (SystemExit code) -> code = 1).
Proof.
  intros Hnd.
  assert (Hcheck : image_sections config = [] ->
                   main config w = mkBooted (Some (SystemExit 1)) None w [BootInvalid]).
  { intros Hnil. apply (image_sections_nil config Hnd) in Hnil as [->|[o ->]];
      reflexivity. }
  assert (Hloop : forall code,
             boot_stop (main config w) = Some (SystemExit code) ->
             code = 1 /\ image_sections config = []).
  { intros code. unfold main.
    destruct (Nat.eqb (length (map fst config)) 0
              || (Nat.eqb (length (map fst config)) 1
                  && bool_decide ("global"%string ∈ map fst config))) eqn:Hc.
    - intros [= <-]. split; [reflexivity|].
      apply (image_sections_nil config Hnd).
      apply orb_true_iff in Hc as [Hc|Hc].
      + left. apply Nat.eqb_eq in Hc. destruct config; [reflexivity|discriminate].
      + right. apply andb_true_iff in Hc as [Hlen Hin].
        apply Nat.eqb_eq in Hlen. apply bool_decide_eq_true in Hin.
        destruct config as [|[n o] [|? ?]]; try discriminate.
        exists o. simpl in Hin. apply list_elem_of_singleton in Hin. subst n.
        reflexivity.
    - intros Hstop. exfalso.
      destruct (boot_loop_registries (image_sections config) DockerPorts_init w [])
        as (dp' & _ & _ & _ & Hno).
      apply (Hno code). assumption. }
  split; [|split].
  - split.
    + intros H. apply Hloop in H. tauto.
    + intros H. rewrite (Hcheck H). reflexivity.
  - assumption.
  - intros code H. apply Hloop in H. tauto.
Qed.


(** X16.  No accepted connection meets an unknown port.  After a bootstrap
    that reached [reactor.run()], in every state that [create] and
    [destroy] calls lead to, a port the script listens on still has the
    entry in [imageParams] that the bootstrap gave it, so that [create]
    on that port gets past the lookup of line 25: it is the admission
    check of that entry, and then either the denial or the launch. *)
Theorem listened_port_stays_registered (config : Config) (w : World) dp p s fuel :
  boot_stop (main config w) = None ->
  boot_ports (main config w) = Some dp ->
  p ∈ listeners (boot_log (main config w)) ->
  reachable (serving_state (main config w) dp) s ->
  exists cfg,
    imageParams dp !! p = Some cfg /\
    imageParams (globalDockerPorts s) !! p = Some cfg /\
    create fuel p s =
      match reached_limit (globalDockerPorts s) (cfg_imagename cfg) (cfg_limit cfg) with
      | Some n =>
          (Returned None,
           mkSys (world s)
                 (EvPrint (MsgReachedMax (cfg_limit cfg) n (cfg_imagename cfg))
                    :: trace s)
                 (next_oid s) (globalDockerPorts s))
      | None => create_admitted fuel (cfg_imagename cfg) (cfg_params cfg) s
      end.
Proof.
  intros Hstop Hports Hin Hreach.
  destruct (main_listener_registered config w dp p Hstop Hports Hin) as [cfg Hcfg].
  exists cfg. split; [assumption|].
  assert (Hs : imageParams (globalDockerPorts s) !! p = Some cfg).
  { rewrite (reachable_imageParams _ _ Hreach). simpl. assumption. }
  split; [assumption|].
  rewrite (create_lookup _ _ _ _ Hs).
  destruct (reached_limit _ _ _); reflexivity.
Qed.

End BootProperties.

(** ** The scenarios *)

Lemma scenario_clock : ClockLaws (RT := Scenario.runtime) Scenario.now.
Proof.
  split; simpl; intros.
  - split; apply Qle_refl.
  - apply Qle_refl.
  - apply Qle_refl.
  - apply Qle_refl.
Qed.

Lemma web_imageParams limit w :
  imageParams (globalDockerPorts (web limit w)) =
    <[2222 := mkImageParams "web" "-P web" limit]> ∅.
Proof. reflexivity. Qed.

Lemma web_image_limit limit w :
  image_limit "web" limit (globalDockerPorts (web limit w)).
Proof.
  intros p cfg Hcfg _. rewrite web_imageParams in Hcfg.
  destruct (decide (p = 2222)) as [->|Hne].
  - rewrite lookup_insert_eq in Hcfg. injection Hcfg as <-. reflexivity.
  - rewrite lookup_insert_ne, lookup_empty in Hcfg by congruence. discriminate.
Qed.

Lemma web_busy_reachable limit :
  reachable (RT := Scenario.runtime) (web limit Scenario.serving) (web_busy limit).
Proof.
  unfold web_busy. apply reach_create; [apply reach_init|].
  rewrite (create_lookup _ _ _ (mkImageParams "web" "-P web" limit)) by reflexivity.
  assert (Hr : reached_limit (globalDockerPorts (web limit Scenario.serving))
                 "web" limit = None).
  { unfold reached_limit. destruct (0 <? limit); reflexivity. }
  simpl cfg_imagename. simpl cfg_limit. rewrite Hr.
  vm_compute. discriminate.
Qed.

Lemma web_busy_lookup limit :
  imageParams (globalDockerPorts (web_busy limit)) !! 2222 =
    Some (mkImageParams "web" "-P web" limit).
Proof.
  unfold web_busy. rewrite create_imageParams, web_imageParams.
  apply lookup_insert_eq.
Qed.

Lemma concurrency_limit_witness :
  Z.of_nat (live_count "web" (globalDockerPorts (web_busy 1))) <= 1 /\
  fst (create (RT := Scenario.runtime) poll_bound 2222 (web_busy 1)) = Returned None.
Proof.
  destruct (concurrency_limit_never_exceeded (RT := Scenario.runtime)
              Scenario.now "web" 1 (web 1 Scenario.serving) (web_busy 1))
    as [Hbound Hcreate].
  - exact scenario_clock.
  - lia.
  - apply web_image_limit.
  - vm_compute. discriminate.
  - apply web_busy_reachable.
  - split; [exact Hbound|].
    destruct (Hcreate poll_bound 2222 (mkImageParams "web" "-P web" 1)) as [Hfull _].
    + apply web_busy_lookup.
    + reflexivity.
    + apply Hfull. vm_compute. discriminate.
Defined.

Lemma create_denied_witness :
  fst (create (RT := Scenario.runtime) poll_bound 2222 (web_busy 1)) = Returned None /\
  globalDockerPorts (snd (create (RT := Scenario.runtime) poll_bound 2222 (web_busy 1))) =
    globalDockerPorts (web_busy 1).
Proof.
  rewrite (create_denied_without_side_effects (RT := Scenario.runtime)
             poll_bound 2222 (web_busy 1) (mkImageParams "web" "-P web" 1)).
  - split; reflexivity.
  - apply web_busy_lookup.
  - simpl. lia.
  - vm_compute. discriminate.
Defined.

Lemma create_unlimited_witness :
  fst (create (RT := Scenario.runtime) poll_bound 2222 (web_busy 0)) <> Returned None /\
  exists inst,
    fst (create (RT := Scenario.runtime) poll_bound 2222 (web_busy 0)) =
      Returned (Some inst).
Proof.
  destruct (create_unlimited_never_denied (RT := Scenario.runtime)
              Scenario.now poll_bound 2222 (web_busy 0)
              (mkImageParams "web" "-P web" 0))
    as (_ & _ & Hnot & Hret).
  - exact scenario_clock.
  - apply web_busy_lookup.
  - reflexivity.
  - split; [exact Hnot|]. apply Hret. lia.
Defined.

Lemma create_nonpositive_limit_witness :
  fst (create (RT := Scenario.runtime) poll_bound 2222 (web_busy (-1))) <> Returned None /\
  exists inst,
    fst (create (RT := Scenario.runtime) poll_bound 2222 (web_busy (-1))) =
      Returned (Some inst).
Proof.
  destruct (create_nonpositive_limit_never_denied (RT := Scenario.runtime)
              Scenario.now poll_bound 2222 (web_busy (-1))
              (mkImageParams "web" "-P web" (-1)))
    as (_ & _ & Hnot & Hret).
  - exact scenario_clock.
  - apply web_busy_lookup.
  - simpl. lia.
  - split; [exact Hnot|]. apply Hret. lia.
Defined.

Lemma isPortOpen_witness :
  middleport web_instance = Some 12345 /\
  exists ready,
    fst (isPortOpen (RT := Scenario.runtime) web_instance readtimeout_default
           (booted Scenario.silent)) = Returned ready /\
    ready = false.
Proof.
  split; [reflexivity|].
  destruct (isPortOpen_iff_byte_read (RT := Scenario.runtime) web_instance 12345
              readtimeout_default (booted Scenario.silent) eq_refl)
    as (ready & Hret & _ & _ & _ & Herr).
  exists ready. split; [exact Hret|]. apply Herr; reflexivity.
Defined.

Lemma start_polls_witness :
  exists started ready es s3,
    waitForOpenPort (RT := Scenario.runtime) poll_bound web_instance
      timeout_default step_default
      (launched "docker run --detach -P web" "c0ffee" 12345
         ("c0ffee" ++ Scenario.newline) "22/tcp -> 0.0.0.0:12345"
         Scenario.silent (booted Scenario.silent)) = (Returned ready, s3) /\
    poll_events 12345 (started + timeout_default)%Q step_default ready es.
Proof.
  destruct (start_polls_until_ready_or_timeout (RT := Scenario.runtime)
              Scenario.now poll_bound web_unstarted (booted Scenario.silent)
              "docker run --detach -P web"
              ("c0ffee" ++ Scenario.newline) Scenario.silent
              "22/tcp -> 0.0.0.0:12345" Scenario.silent 12345)
    as (started & ready & es & s3 & Hwait & _ & Hev & _).
  - exact scenario_clock.
  - lia.
  - reflexivity.
  - reflexivity.
  - reflexivity.
  - reflexivity.
  - exists started, ready, es, s3. split; [exact Hwait | exact Hev].
Defined.

(** C1, as the spec has it, fails in its last part: below the limit,
    [create] does not always register an instance.  For the image of
    [web_braces], with limit 1 and no instance, the second [str.format]
    of [start] raises [KeyError] on the field [{B}] of the parameters:
    [create] raises, and the registry is as before, with no instance of
    the image. *)
Lemma create_below_limit_registers_nothing :
  let s := web_braces in
  let r := create (RT := Scenario.runtime) poll_bound 2222 s in
  imageParams (globalDockerPorts s) !! 2222 =
    Some (mkImageParams "web" "-e A={B} web" 1) /\
  image_limit "web" 1 (globalDockerPorts s) /\
  Z.of_nat (live_count "web" (globalDockerPorts s)) < 1 /\
  fst r = Raised KeyError /\
  (forall inst, fst r <> Returned (Some inst)) /\
  globalDockerPorts (snd r) = globalDockerPorts s /\
  live_count "web" (globalDockerPorts (snd r)) = 0%nat.
Proof.
  cbv zeta.
  assert (Hr : create (RT := Scenario.runtime) poll_bound 2222 web_braces =
               (Raised KeyError, allocated web_braces)).
  { rewrite (create_lookup (RT := Scenario.runtime) poll_bound 2222 web_braces
               (mkImageParams "web" "-e A={B} web" 1)) by reflexivity.
    rewrite reached_limit_below by (vm_compute; reflexivity).
    apply create_admitted_unformattable. reflexivity. }
  rewrite Hr. split; [reflexivity|]. split.
  - intros p cfg Hcfg _.
    change (imageParams (globalDockerPorts web_braces))
      with (<[2222 := mkImageParams "web" "-e A={B} web" 1]>
              (∅ : gmap Z ImageParams)) in Hcfg.
    destruct (decide (p = 2222)) as [->|Hne].
    + rewrite lookup_insert_eq in Hcfg. injection Hcfg as <-. reflexivity.
    + rewrite lookup_insert_ne, lookup_empty in Hcfg by congruence. discriminate.
  - split; [vm_compute; reflexivity|]. split; [reflexivity|].
    split; [discriminate|]. split; reflexivity.
Qed.

(** C3, as the spec has it, fails: when [docker kill] reports a failure,
    [stop] does not attempt [docker rm]. *)
Lemma stop_failed_kill_skips_rm :
  let s := booted Scenario.nokill in
  let s' := snd (stop (RT := Scenario.runtime) web_instance s) in
  fst (stop (RT := Scenario.runtime) web_instance s) = Returned false /\
  attempted (DockerKill (Some "c0ffee"%string)) s s' /\
  ~ attempted (DockerRm (Some "c0ffee"%string)) s s'.
Proof.
  split; [reflexivity|]. split.
  - eexists [_; _; _], _, _. split; [reflexivity|]. right. left. reflexivity.
  - intros (es & rc & out & Htr & Hin).
    change (trace (booted Scenario.nokill)) with (@nil Event) in Htr.
    rewrite app_nil_r in Htr. subst es. vm_compute in Hin.
    destruct Hin as [H|[H|[H|[]]]]; discriminate.
Qed.

(** C6, as the spec has it, fails: a second [registerProxy] for a port
    that is registered returns normally and replaces the
    configuration. *)
Lemma registerProxy_twice_succeeds :
  let s1 := web 1 Scenario.serving in
  let r := registerProxy "ssh" 2222 "-P ssh" 5 s1 in
  imageParams (globalDockerPorts s1) !! 2222 = Some (mkImageParams "web" "-P web" 1) /\
  fst r = Returned tt /\
  (forall e, fst r <> Raised e) /\
  imageParams (globalDockerPorts (snd r)) !! 2222 =
    Some (mkImageParams "ssh" "-P ssh" 5).
Proof.
  split; [reflexivity|]. split; [reflexivity|]. split; [discriminate|].
  reflexivity.
Qed.

(** C2: [create] does not look at what [start] returns.  When
    [docker run] fails, [start] returns [None], and [create] still
    returns the instance and registers it, under the port [None]; the
    same happens when the readiness polling times out. *)
Theorem create_registers_failed_start :
  let s := web 1 Scenario.norun in
  let r := create (RT := Scenario.runtime) poll_bound 2222 s in
  let s' := web 1 Scenario.silent in
  let r' := create (RT := Scenario.runtime) poll_bound 2222 s' in
  (fst (start (RT := Scenario.runtime) poll_bound web_unstarted (allocated s)) =
     Returned (None, web_unstarted) /\
   fst r = Returned (Some web_unstarted) /\
   instancesByPort (globalDockerPorts (snd r)) !! None = Some web_unstarted /\
   instancesByName (globalDockerPorts (snd r)) !! "web"%string = Some [web_unstarted]) /\
  (fst (start (RT := Scenario.runtime) poll_bound web_unstarted (allocated s')) =
     Returned (None, web_instance) /\
   fst r' = Returned (Some web_instance) /\
   instancesByPort (globalDockerPorts (snd r')) !! Some 12345 = Some web_instance /\
   instancesByName (globalDockerPorts (snd r')) !! "web"%string = Some [web_instance]).
Proof.
  split; (split; [|split; [|split]]); vm_compute; reflexivity.
Qed.

(** C4: after a failed [start] the session is not rejected.
    [connectionMade] attaches the failed instance and asks the reactor
    to connect to its port [None]; nothing is written to the client and
    the connection is not closed; the teardown then releases that
    instance. *)
Theorem connectionMade_relays_after_failed_start :
  let s := web 1 Scenario.norun in
  let r := connectionMade (RT := Scenario.runtime) poll_bound 2222 s in
  fst (start (RT := Scenario.runtime) poll_bound web_unstarted
         (allocated (mkSys (world s) (EvPauseProducing :: trace s) (next_oid s)
                           (globalDockerPorts s)))) =
    Returned (None, web_unstarted) /\
  fst r = Returned (Some web_unstarted) /\
  hd_error (trace (snd r)) = Some (EvConnectTCP "0.0.0.0" None) /\
  ~ In (EvWrite rejection_line) (trace (snd r)) /\
  ~ In EvLoseConnection (trace (snd r)) /\
  attempted (DockerKill None) (snd r)
    (snd (connectionLost (RT := Scenario.runtime) (Some web_unstarted) (snd r))).
Proof.
  split; [vm_compute; reflexivity|].
  split; [vm_compute; reflexivity|].
  split; [vm_compute; reflexivity|].
  split; [|split].
  - vm_compute. intros H. repeat (destruct H as [H|H]; [discriminate|]). exact H.
  - vm_compute. intros H. repeat (destruct H as [H|H]; [discriminate|]). exact H.
  - eexists [_; _; _; _], _, _. split; [vm_compute; reflexivity|].
    right. right. left. reflexivity.
Qed.

(** ** Scenarios beyond the claims *)

Lemma registry_wf_fresh limit w : registry_wf (web limit w).
Proof.
  assert (Hnone : forall i, ~ held i (globalDockerPorts (web limit w))).
  { intros i [(img & l & Hl & _)|(p & Hp)].
    - change (instancesByName (globalDockerPorts (web limit w)))
        with (∅ : gmap string (list DockerInstance)) in Hl.
      rewrite lookup_empty in Hl. discriminate.
    - change (instancesByPort (globalDockerPorts (web limit w)))
        with (∅ : gmap (option Z) DockerInstance) in Hp.
      rewrite lookup_empty in Hp. discriminate. }
  split.
  - intros i Hi. destruct (Hnone i Hi).
  - intros i j Hi. destruct (Hnone i Hi).
  - intros img l i Hl Hi. destruct (Hnone i). left. eauto.
  - intros p i Hp. destruct (Hnone i). right. eauto.
  - intros img l Hl.
    change (instancesByName (globalDockerPorts (web limit w)))
      with (∅ : gmap string (list DockerInstance)) in Hl.
    rewrite lookup_empty in Hl. discriminate.
Qed.

Lemma web_busy_wf limit : registry_wf (web_busy limit).
Proof. unfold web_busy. apply registry_wf_create. apply registry_wf_fresh. Qed.

Lemma web_lookup limit w :
  imageParams (globalDockerPorts (web limit w)) !! 2222 =
    Some (mkImageParams "web" "-P web" limit).
Proof. rewrite web_imageParams. apply lookup_insert_eq. Qed.

Lemma reachable_registry_wf_witness : registry_wf (web_busy 1).
Proof.
  apply (reachable_registry_wf (RT := Scenario.runtime) (web 1 Scenario.serving)).
  - apply registry_wf_fresh.
  - apply web_busy_reachable.
Defined.

Lemma destroy_unregisters_witness :
  fst (destroy (RT := Scenario.runtime) web_instance (web_busy 1)) = Returned tt /\
  S (live_count (imagename web_instance)
       (globalDockerPorts
          (snd (destroy (RT := Scenario.runtime) web_instance (web_busy 1))))) =
    live_count (imagename web_instance) (globalDockerPorts (web_busy 1)).
Proof.
  destruct (destroy_unregisters (RT := Scenario.runtime) web_instance (web_busy 1)
              web_instance [web_instance])
    as (l' & _ & Hres & _ & _ & _ & Hcount & _).
  - vm_compute. reflexivity.
  - vm_compute. reflexivity.
  - apply Exists_cons_hd. reflexivity.
  - split; [exact Hres | exact Hcount].
Defined.

Lemma create_destroy_round_trip_witness :
  fst (destroy (RT := Scenario.runtime) web_instance
         (with_world Scenario.silent
            (snd (create (RT := Scenario.runtime) poll_bound 2222
                    (web 1 Scenario.serving))))) = Returned tt.
Proof.
  destruct (create_destroy_round_trip (RT := Scenario.runtime)
              poll_bound 2222 (web 1 Scenario.serving) web_instance Scenario.silent)
    as (cfg & _ & _ & Hd & _).
  - apply registry_wf_fresh.
  - vm_compute. reflexivity.
  - exact Hd.
Defined.

Lemma destroy_frees_slot_witness :
  fst (create (RT := Scenario.runtime) poll_bound 2222 (web_busy 1)) = Returned None /\
  fst (create (RT := Scenario.runtime) poll_bound 2222
         (snd (destroy (RT := Scenario.runtime) web_instance (web_busy 1))))
    <> Returned None.
Proof.
  destruct (destroy_frees_slot (RT := Scenario.runtime) poll_bound 2222 (web_busy 1)
              (mkImageParams "web" "-P web" 1) web_instance web_instance
              [web_instance])
    as (Hdenied & _ & Hfree).
  - apply web_busy_lookup.
  - reflexivity.
  - simpl. lia.
  - vm_compute. reflexivity.
  - vm_compute. reflexivity.
  - apply Exists_cons_hd. reflexivity.
  - reflexivity.
  - split; [exact Hdenied | exact Hfree].
Defined.

Lemma destroy_shared_port_witness :
  fst (destroy (RT := Scenario.runtime) web_unstarted web_two_unstarted) = Returned tt /\
  fst (destroy (RT := Scenario.runtime) web_unstarted'
         (with_world Scenario.norun
            (snd (destroy (RT := Scenario.runtime) web_unstarted web_two_unstarted))))
    = Raised KeyError.
Proof.
  destruct (destroy_shared_port_leaves_entry (RT := Scenario.runtime)
              web_unstarted web_unstarted' web_two_unstarted web_unstarted'
              [web_unstarted; web_unstarted'] [web_unstarted; web_unstarted']
              Scenario.norun)
    as (Ha & Hb & _).
  - reflexivity.
  - simpl. lia.
  - vm_compute. reflexivity.
  - vm_compute. reflexivity.
  - apply Exists_cons_hd. reflexivity.
  - vm_compute. reflexivity.
  - apply elem_of_cons. right. apply elem_of_cons. left. reflexivity.
  - split; [exact Ha | exact Hb].
Defined.

Lemma start_failure_cleanup_witness :
  exists cmd,
    format0 (Runtime := Scenario.runtime) (run_text (dockerparams web_unstarted)) = inr cmd /\
    forall c, c <> DockerRun cmd ->
      ~ attempted c (booted Scenario.norun)
          (snd (start (RT := Scenario.runtime) poll_bound web_unstarted
                  (booted Scenario.norun))).
Proof.
  destruct (start_failure_cleanup (RT := Scenario.runtime) poll_bound web_unstarted
              (booted Scenario.norun) web_unstarted
              (snd (start (RT := Scenario.runtime) poll_bound web_unstarted
                      (booted Scenario.norun))))
    as (cmd & Hfmt & Hrun & _ & _).
  - vm_compute. reflexivity.
  - exists cmd. split; [exact Hfmt|]. apply Hrun.
    injection Hfmt as <-. vm_compute. discriminate.
Defined.

Lemma start_success_witness :
  instanceid web_instance = Some "c0ffee"%string /\
  ~ attempted (DockerKill (Some "c0ffee"%string)) (booted Scenario.serving)
      (snd (start (RT := Scenario.runtime) poll_bound web_unstarted
              (booted Scenario.serving))).
Proof.
  destruct (start_success_saw_byte (RT := Scenario.runtime) poll_bound web_unstarted
              (booted Scenario.serving) "c0ffee" web_instance
              (snd (start (RT := Scenario.runtime) poll_bound web_unstarted
                      (booted Scenario.serving))))
    as (Hid & port & data & rest & _ & _ & _ & Hno).
  - vm_compute. reflexivity.
  - split; [exact Hid | exact Hno].
Defined.

Lemma polling_probes_witness :
  exists r s' es,
    waitForOpenPort (RT := Scenario.runtime) poll_bound web_instance
      timeout_default step_default (booted Scenario.silent) = (Returned r, s') /\
    trace s' = es ++ trace (booted Scenario.silent) /\
    (probes es <= 51)%nat.
Proof.
  apply (polling_probes_bounded (RT := Scenario.runtime) Scenario.now poll_bound
           web_instance 12345 (booted Scenario.silent)).
  - exact scenario_clock.
  - reflexivity.
  - lia.
Defined.

Lemma session_round_trip_witness :
  fst (connectionLost (RT := Scenario.runtime) None
         (with_world Scenario.silent
            (snd (connectionMade (RT := Scenario.runtime) poll_bound 2222
                    (web_busy 1))))) = Returned None.
Proof.
  destruct (session_round_trip (RT := Scenario.runtime) poll_bound 2222
              (web_busy 1) None Scenario.silent)
    as [Hl _].
  - apply web_busy_wf.
  - vm_compute. reflexivity.
  - exact Hl.
Defined.

Lemma create_error_paths_witness :
  create (RT := Scenario.runtime) poll_bound 80 web_braces =
    (Raised KeyError, web_braces) /\
  create (RT := Scenario.runtime) poll_bound 2222 web_braces =
    (Raised KeyError, allocated web_braces).
Proof.
  destruct (create_error_paths (RT := Scenario.runtime) poll_bound 80 web_braces)
    as [Hkey _].
  destruct (create_error_paths (RT := Scenario.runtime) poll_bound 2222 web_braces)
    as [_ Hfmt].
  split.
  - apply Hkey. vm_compute. reflexivity.
  - apply (Hfmt (mkImageParams "web" "-e A={B} web" 1) KeyError).
    + reflexivity.
    + vm_compute. reflexivity.
    + reflexivity.
Defined.

Lemma global_config_names : NoDup (map fst global_config).
Proof. apply NoDup_singleton. Qed.

Lemma main_invalid_config_witness :
  main (RX := scenario_reactor) global_config Scenario.serving =
    mkBooted (Some (SystemExit 1)) None Scenario.serving [BootInvalid].
Proof.
  destruct (main_invalid_config_iff_no_image (RX := scenario_reactor) global_config
              Scenario.serving global_config_names) as (_ & Hexit & _).
  apply Hexit. reflexivity.
Defined.

(** The registry that the bootstrap of [web_config] sets up. *)
Lemma web_config_boots :
  boot_stop (main (RX := scenario_reactor) web_config Scenario.serving) = None /\
  boot_ports (main (RX := scenario_reactor) web_config Scenario.serving) =
    Some (globalDockerPorts (web 1 Scenario.serving)).
Proof. split; vm_compute; reflexivity. Qed.


Lemma listened_port_witness :
  exists cfg,
    imageParams
      (globalDockerPorts
         (serving_state (main (RX := scenario_reactor) web_config Scenario.serving)
            (globalDockerPorts (web 1 Scenario.serving)))) !! 2222 = Some cfg.
Proof.
  destruct (listened_port_stays_registered (RT := Scenario.runtime)
              (RX := scenario_reactor) web_config Scenario.serving
              (globalDockerPorts (web 1 Scenario.serving)) 2222
              (serving_state (main (RX := scenario_reactor) web_config Scenario.serving)
                 (globalDockerPorts (web 1 Scenario.serving)))
              poll_bound)
    as (cfg & _ & Hcfg & _).
  - exact (proj1 web_config_boots).
  - exact (proj2 web_config_boots).
  - vm_compute. apply elem_of_cons. left. reflexivity.
  - apply reach_init.
  - exists cfg. exact Hcfg.
Defined.
